(** * Remote execution over pipes: [rdiff_backup/connection.py]

    A shallow embedding of the connection classes of rdiff-backup
    ([Connection], [LocalConnection], [LowLevelPipeConnection],
    [PipeConnection], [RedirectedConnection] and [RedirectedRun]) together
    with the properties of the wire format, of the request-number
    bookkeeping, of the name resolver and of the routed calls.

    Python objects with mutable attributes live in a store ([World]);
    every method is a function in a state-and-exception monad over that
    store.  Code of other modules (pickle, errno, Security, robust, the
    callables reachable through the registry) is kept in an environment
    record [Env]. *)

From Stdlib Require Import ZArith Lia List.
From Stdlib.Strings Require Import Byte Ascii String.
From stdpp Require Import gmap strings list pretty.

Open Scope Z_scope.

(** ** Exceptions *)

(** The exception classes that the module raises or tests for.
    [OtherException] stands for any further subclass of [Exception]. *)
Inductive exc_class : Type :=
| ConnectionError
| ConnectionReadError
| ConnectionWriteError
| ConnectionQuit
| AssertionError
| AttributeError
| IndexError
| KeyError
| MemoryError
| NameError
| OSError
| OverflowError
| TypeError
| UnicodeEncodeError
| ValueError
| SystemExit
| KeyboardInterrupt
| OtherException (name : string).

#[global] Instance exc_class_eq_dec : EqDecision exc_class.
Proof. solve_decision. Defined.

(** [issubclass c base] for the classes above: the module derives
    [ConnectionReadError] and [ConnectionWriteError] from its own
    [ConnectionError]; everything else is only related to itself. *)
Definition issubclass (c base : exc_class) : bool :=
  bool_decide (c = base)
  || (bool_decide (base = ConnectionError)
      && (bool_decide (c = ConnectionReadError) || bool_decide (c = ConnectionWriteError))).

(** Subclasses of [Exception]: all but [SystemExit] and [KeyboardInterrupt]. *)
Definition is_Exception (c : exc_class) : bool :=
  match c with
  | SystemExit | KeyboardInterrupt => false
  | _ => true
  end.

(** An exception instance.  [errno] and [strerror] are the attributes of
    an [OSError]; [errno_str] is the attribute that [_extract_exception]
    adds ([None] when the instance has no such attribute). *)
Record exn : Type := Exn {
  exc_type : exc_class;
  message : string;
  errno : option Z;
  strerror : string;
  errno_str : option string
}.

Definition mk_exn (c : exc_class) (msg : string) : exn :=
  {| exc_type := c; message := msg; errno := None; strerror := ""; errno_str := None |}.

Definition isinstance (e : exn) (c : exc_class) : bool := issubclass (exc_type e) c.

(** Result of running a piece of code: a value, a raised exception, or
    the fuel of a loop ran out (the loop did not finish within the bound). *)
Inductive outcome (A : Type) : Type :=
| Ok (a : A)
| Raise (e : exn)
| OutOfFuel.
Arguments Ok {A} a.
Arguments Raise {A} e.
Arguments OutOfFuel {A}.

(** ** Integers on the wire: [_i2b] and [_b2i] *)

Definition byte_to_Z (b : byte) : Z := Z.of_N (Byte.to_N b).

Definition byte_of_Z (z : Z) : byte :=
  match Byte.of_N (Z.to_N z) with
  | Some b => b
  | None => "000"%byte
  end.

(** [int.bit_length]: number of bits of the absolute value. *)
Definition bit_length (i : Z) : Z :=
  if i =? 0 then 0 else Z.log2 (Z.abs i) + 1.

(** The [size] low-order base-256 digits of [i], most significant first. *)
Fixpoint be_digits (size : nat) (i : Z) : list byte :=
  match size with
  | O => []
  | S n => be_digits n (i / 256) ++ [byte_of_Z (i mod 256)]
  end.

(** [int.to_bytes(size, byteorder="big")] for an unsigned conversion. *)
Definition to_bytes (i size : Z) : outcome (list byte) :=
  if size <? 0 then Raise (mk_exn ValueError "length argument must be non-negative")
  else if i <? 0 then Raise (mk_exn OverflowError "can't convert negative int to unsigned")
  else if 256 ^ size <=? i then Raise (mk_exn OverflowError "int too big to convert")
  else Ok (be_digits (Z.to_nat size) i).

(** [int.from_bytes(b, byteorder="big")]. *)
Definition from_bytes (b : list byte) : Z :=
  fold_left (fun acc x => acc * 256 + byte_to_Z x) b 0.

(** [LowLevelPipeConnection._b2i]. *)
Definition _b2i (b : list byte) : Z := from_bytes b.

(** [LowLevelPipeConnection._i2b]; the default [size=0] is passed as [0]. *)
Definition _i2b (i size : Z) : outcome (list byte) :=
  let size := if size =? 0 then (bit_length i + 7) / 8 else size in
  to_bytes i size.

(** [str.encode("ascii")]. *)
Fixpoint encode_ascii (s : string) : outcome (list byte) :=
  match s with
  | EmptyString => Ok []
  | String c rest =>
      if (N_of_ascii c <? 128)%N then
        match encode_ascii rest with
        | Ok bs => Ok (byte_of_ascii c :: bs)
        | r => r
        end
      else Raise (mk_exn UnicodeEncodeError "'ascii' codec can't encode character")
  end.

(** ** Values *)

(** A connection object.  A [PipeConnection] is a reference [oid] into
    the store, where its mutable attributes live; [LocalConnection] is
    the single local connection of the process; a [RedirectedConnection]
    keeps the routing connection it looked up when it was built. *)
Inductive Conn : Type :=
| LocalConnection
| PipeConnection (oid : nat)
| RedirectedConnection (conn_number routing_number : Z) (routing_conn : Conn).

#[global] Instance Conn_eq_dec : EqDecision Conn.
Proof. solve_decision. Defined.

(** The Python values that cross a connection. *)
#[warnings="-register-all"]
Inductive value : Type :=
| VNone
| VInt (z : Z)
| VStr (s : string)
| VBytes (b : list byte)
| VTuple (items : list value)
| VConn (c : Conn)
| VRequest (function_string : string) (num_args : Z)   (* ConnectionRequest *)
| VExc (e : exn)                                         (* an exception instance *)
| VVirtualFile (connection : Conn) (id : Z)              (* VirtualFile(connection, id) *)
| VFileToMiscIter (file : value)                         (* iterfile.FileToMiscIter(file) *)
| VMiscIterToFile (iterator : value)                     (* iterfile.MiscIterToFile(iterator) *)
| VRORPath (index data : value)                          (* rpath.RORPath *)
| VRPath (conn : Conn) (base index data : value)         (* rpath.RPath *)
| VQuotedRPath (conn : Conn) (base index data : value)   (* map_filenames.QuotedRPath *)
| VFileObj (name : string)                               (* a local file object *)
| VIterator (name : string)                              (* a local iterator *)
| VModule (path : string)                                (* an imported module *)
| VObject (name : string)                                (* any other object *)
| VLocalConnectionClass
| VVirtualFileClass
| VRedirectedRun.                                        (* the function RedirectedRun *)

(** ** The store *)

(** Attributes of one [PipeConnection] object.  [inpipe] holds the bytes
    still to be read, [outpipe] the bytes written so far.  [in_fault] and
    [out_fault] say which exception the file object raises on the next
    read or write, if any; [closed] is set by [_close]. *)
Record PipeObj : Type := {
  inpipe : list byte;
  in_fault : option exc_class;
  outpipe : list byte;
  out_fault : option exc_class;
  closed : bool;
  conn_number : Z;
  unused_request_numbers : gset Z
}.

#[global] Instance PipeObj_inhabited : Inhabited PipeObj :=
  populate {| inpipe := []; in_fault := None; outpipe := []; out_fault := None;
              closed := false; conn_number := 0; unused_request_numbers := ∅ |}.

(** Process-wide state: the [PipeConnection] objects, the registry
    [specifics.connection_dict], the number of the local connection,
    [Connection.globals], and the class attributes of [VirtualFile]. *)
Record World : Type := {
  objects : gmap nat PipeObj;
  connection_dict : gmap Z Conn;
  local_conn_number : Z;
  globals : gmap string value;
  _vfiles : gmap Z value;
  _counter : Z
}.

Definition attrs (w : World) (self : nat) : PipeObj := objects w !!! self.

Definition set_obj (self : nat) (o : PipeObj) (w : World) : World :=
  {| objects := <[self := o]> (objects w);
     connection_dict := connection_dict w;
     local_conn_number := local_conn_number w;
     globals := globals w;
     _vfiles := _vfiles w;
     _counter := _counter w |}.

Definition set_inpipe (bs : list byte) (o : PipeObj) : PipeObj :=
  {| inpipe := bs; in_fault := in_fault o; outpipe := outpipe o; out_fault := out_fault o;
     closed := closed o; conn_number := conn_number o;
     unused_request_numbers := unused_request_numbers o |}.

Definition set_outpipe (bs : list byte) (o : PipeObj) : PipeObj :=
  {| inpipe := inpipe o; in_fault := in_fault o; outpipe := bs; out_fault := out_fault o;
     closed := closed o; conn_number := conn_number o;
     unused_request_numbers := unused_request_numbers o |}.

Definition set_closed (b : bool) (o : PipeObj) : PipeObj :=
  {| inpipe := inpipe o; in_fault := in_fault o; outpipe := outpipe o; out_fault := out_fault o;
     closed := b; conn_number := conn_number o;
     unused_request_numbers := unused_request_numbers o |}.

Definition set_unused (s : gset Z) (o : PipeObj) : PipeObj :=
  {| inpipe := inpipe o; in_fault := in_fault o; outpipe := outpipe o; out_fault := out_fault o;
     closed := closed o; conn_number := conn_number o;
     unused_request_numbers := s |}.

Definition set_vfiles (m : gmap Z value) (c : Z) (w : World) : World :=
  {| objects := objects w;
     connection_dict := connection_dict w;
     local_conn_number := local_conn_number w;
     globals := globals w;
     _vfiles := m;
     _counter := c |}.

(** The set of unused request numbers of the connection object [self]. *)
Definition unused (w : World) (self : nat) : gset Z :=
  unused_request_numbers (attrs w self).

(** ** The monad of methods *)

Definition M (A : Type) : Type := World -> outcome A * World.

Definition ret {A} (a : A) : M A := fun w => (Ok a, w).

Definition raise {A} (e : exn) : M A := fun w => (Raise e, w).

Definition lift {A} (o : outcome A) : M A := fun w => (o, w).

Definition bind {A B} (m : M A) (k : A -> M B) : M B :=
  fun w =>
    match m w with
    | (Ok a, w') => k a w'
    | (Raise e, w') => (Raise e, w')
    | (OutOfFuel, w') => (OutOfFuel, w')
    end.

(** [try: m  except ...: h e]; the handler decides which classes it
    catches and re-raises the others. *)
Definition try_except {A} (m : M A) (h : exn -> M A) : M A :=
  fun w =>
    match m w with
    | (Raise e, w') => h e w'
    | r => r
    end.

Notation "'let!' x := m 'in' k" := (bind m (fun x => k))
  (at level 10, x pattern, m at level 100, k at level 200,
   format "'[v' 'let!'  x  :=  m  'in' '/' k ']'").

(** ** The environment: code of other modules *)

Record Env : Type := {
  (** [pickle.dumps(obj, consts.PICKLE_PROTOCOL)] and [pickle.loads]. *)
  pickle_dumps : value -> list byte;
  pickle_loads : list byte -> outcome value;
  (** The element that [set.pop()] takes out of a non-empty set. *)
  set_pop : gset Z -> Z;
  (** [errno.errorcode] and the attributes of the module [errno]. *)
  errno_errorcode : gmap Z string;
  errno_module : gmap string Z;
  (** [robust.is_routine_fatal]. *)
  is_routine_fatal : exn -> bool;
  (** [Security.vet_request(request, arguments)]: the exception it raises, if any. *)
  vet_request : string -> Z -> list value -> option exn;
  (** The names of [__builtins__]. *)
  builtins : gmap string value;
  (** [getattr(obj, name)]; [None] stands for [AttributeError]. *)
  py_getattr : value -> string -> option value;
  (** [importlib.import_module]. *)
  import_module : string -> value;
  (** Calling a callable that is not defined in this module. *)
  call_extern : value -> list value -> M value
}.

(** [set.pop()] returns a member of the set. *)
Definition set_pop_valid (E : Env) : Prop :=
  ∀ s : gset Z, s ≠ ∅ → set_pop E s ∈ s.

(** ** File objects of a connection *)

(** [self.outpipe.write(bs)]. *)
Definition outpipe_write (self : nat) (bs : list byte) : M unit :=
  fun w =>
    let o := attrs w self in
    if closed o then (Raise (mk_exn ValueError "write to closed file"), w)
    else match out_fault o with
         | Some c => (Raise (mk_exn c "write failed"), w)
         | None => (Ok tt, set_obj self (set_outpipe (outpipe o ++ bs) o) w)
         end.

(** [self.outpipe.flush()]. *)
Definition outpipe_flush (self : nat) : M unit :=
  fun w =>
    let o := attrs w self in
    if closed o then (Raise (mk_exn ValueError "flush of closed file"), w)
    else match out_fault o with
         | Some c => (Raise (mk_exn c "flush failed"), w)
         | None => (Ok tt, w)
         end.

(** [self.inpipe.read(n)]: up to [n] bytes, fewer only at the end of the
    stream; a negative [n] reads everything. *)
Definition inpipe_read (self : nat) (n : Z) : M (list byte) :=
  fun w =>
    let o := attrs w self in
    if closed o then (Raise (mk_exn ValueError "read of closed file"), w)
    else match in_fault o with
         | Some c => (Raise (mk_exn c "read failed"), w)
         | None =>
             if n <? 0 then (Ok (inpipe o), set_obj self (set_inpipe [] o) w)
             else (Ok (take (Z.to_nat n) (inpipe o)),
                   set_obj self (set_inpipe (drop (Z.to_nat n) (inpipe o)) o) w)
         end.

(** [conn.conn_number]. *)
Definition conn_number_of (w : World) (c : Conn) : Z :=
  match c with
  | LocalConnection => local_conn_number w
  | PipeConnection oid => conn_number (attrs w oid)
  | RedirectedConnection n _ _ => n
  end.

Definition get_conn_number (c : Conn) : M Z :=
  fun w => (Ok (conn_number_of w c), w).

(** [specifics.connection_dict[key]]. *)
Definition connection_dict_getitem (key : value) : M Conn :=
  fun w =>
    match key with
    | VInt n =>
        match connection_dict w !! n with
        | Some c => (Ok c, w)
        | None => (Raise (mk_exn KeyError (pretty n)), w)
        end
    | _ => (Raise (mk_exn KeyError "key"), w)
    end.

(** [VirtualFile.new]. *)
Definition VirtualFile_new (fileobj : value) : M Z :=
  fun w =>
    let c := _counter w + 1 in
    (Ok c, set_vfiles (<[c := fileobj]> (_vfiles w)) c w).

(** ** [LowLevelPipeConnection] *)

(** [LowLevelPipeConnection._write]. *)
Definition _write (self : nat) (headerchar : string) (data : list byte) (req_num : Z) : M unit :=
  if negb (String.length headerchar =? 1)%nat then
    raise (mk_exn AssertionError
             ("Header type " +:+ headerchar +:+ " can only have one letter/byte"))
  else
    let! headerchar := lift (encode_ascii headerchar) in
    try_except
      (let! b1 := lift (_i2b req_num 1) in
       let! b2 := lift (_i2b (Z.of_nat (length data)) 7) in
       let! _ := outpipe_write self (headerchar ++ b1 ++ b2) in
       let! _ := outpipe_write self data in
       outpipe_flush self)
      (fun e =>
         if isinstance e OSError || isinstance e AttributeError
         then raise (mk_exn ConnectionWriteError "")
         else raise e).

(** [LowLevelPipeConnection._putobj]. *)
Definition _putobj (E : Env) (self : nat) (obj : value) (req_num : Z) : M unit :=
  _write self "o" (pickle_dumps E obj) req_num.

(** [LowLevelPipeConnection._putbuf]. *)
Definition _putbuf (self : nat) (buf : list byte) (req_num : Z) : M unit :=
  _write self "b" buf req_num.

(** [LowLevelPipeConnection._putfile]. *)
Definition _putfile (self : nat) (fp : value) (req_num : Z) : M unit :=
  let! id := VirtualFile_new fp in
  let! b := lift (_i2b id 0) in
  _write self "f" b req_num.

(** [LowLevelPipeConnection._putiter]. *)
Definition _putiter (self : nat) (iterator : value) (req_num : Z) : M unit :=
  let! id := VirtualFile_new (VMiscIterToFile iterator) in
  let! b := lift (_i2b id 0) in
  _write self "i" b req_num.

(** [LowLevelPipeConnection._putrpath]. *)
Definition _putrpath (E : Env) (self : nat) (conn : Conn) (base index data : value)
    (req_num : Z) : M unit :=
  let! n := get_conn_number conn in
  let rpath_repr := VTuple [VInt n; base; index; data] in
  _write self "R" (pickle_dumps E rpath_repr) req_num.

(** [LowLevelPipeConnection._putqrpath]. *)
Definition _putqrpath (E : Env) (self : nat) (conn : Conn) (base index data : value)
    (req_num : Z) : M unit :=
  let! n := get_conn_number conn in
  let qrpath_repr := VTuple [VInt n; base; index; data] in
  _write self "Q" (pickle_dumps E qrpath_repr) req_num.

(** [LowLevelPipeConnection._putrorpath]. *)
Definition _putrorpath (E : Env) (self : nat) (index data : value) (req_num : Z) : M unit :=
  let rorpath_repr := VTuple [index; data] in
  _write self "r" (pickle_dumps E rorpath_repr) req_num.

(** [LowLevelPipeConnection._putconn]. *)
Definition _putconn (self : nat) (pipeconn : Conn) (req_num : Z) : M unit :=
  let! n := get_conn_number pipeconn in
  let! b := lift (_i2b n 0) in
  _write self "c" b req_num.

(** [LowLevelPipeConnection._putquit]. *)
Definition _putquit (self : nat) : M unit :=
  _write self "q" [] 255.

(** [LowLevelPipeConnection._put]: the class tests, in the order of the
    source.  File objects are the values with [read] or [write] and
    [close]; iterators the ones with [__next__] and [__iter__]. *)
Definition _put (E : Env) (self : nat) (obj : value) (req_num : Z) : M unit :=
  match obj with
  | VBytes buf => _putbuf self buf req_num
  | VConn c => _putconn self c req_num
  | VQuotedRPath conn base index data => _putqrpath E self conn base index data req_num
  | VRPath conn base index data => _putrpath E self conn base index data req_num
  | VRORPath index data => _putrorpath E self index data req_num
  | VFileObj _ | VVirtualFile _ _ | VMiscIterToFile _ => _putfile self obj req_num
  | VIterator _ | VFileToMiscIter _ => _putiter self obj req_num
  | _ => _putobj E self obj req_num
  end.

(** [LowLevelPipeConnection._read]. *)
Definition _read (self : nat) (length : Z) : M (list byte) :=
  try_except (inpipe_read self length)
    (fun e => if isinstance e OSError then raise (mk_exn ConnectionReadError "") else raise e).

(** [LowLevelPipeConnection._getrorpath]. *)
Definition _getrorpath (E : Env) (raw_rorpath_buf : list byte) : M value :=
  let! t := lift (pickle_loads E raw_rorpath_buf) in
  match t with
  | VTuple [index; data] => ret (VRORPath index data)
  | VTuple _ => raise (mk_exn ValueError "wrong number of values to unpack")
  | _ => raise (mk_exn TypeError "cannot unpack non-iterable object")
  end.

(** [LowLevelPipeConnection._getrpath]. *)
Definition _getrpath (E : Env) (raw_rpath_buf : list byte) : M value :=
  let! t := lift (pickle_loads E raw_rpath_buf) in
  match t with
  | VTuple [conn_number; base; index; data] =>
      let! conn := connection_dict_getitem conn_number in
      ret (VRPath conn base index data)
  | VTuple _ => raise (mk_exn ValueError "wrong number of values to unpack")
  | _ => raise (mk_exn TypeError "cannot unpack non-iterable object")
  end.

(** [LowLevelPipeConnection._getqrpath]. *)
Definition _getqrpath (E : Env) (raw_qrpath_buf : list byte) : M value :=
  let! t := lift (pickle_loads E raw_qrpath_buf) in
  match t with
  | VTuple [conn_number; base; index; data] =>
      let! conn := connection_dict_getitem conn_number in
      ret (VQuotedRPath conn base index data)
  | VTuple _ => raise (mk_exn ValueError "wrong number of values to unpack")
  | _ => raise (mk_exn TypeError "cannot unpack non-iterable object")
  end.

(** [format_string == b"c"] for a byte string [format_string]. *)
Definition format_is (format_string : list byte) (c : byte) : bool :=
  match format_string with
  | [b] => Byte.eqb b c
  | _ => false
  end.

(** First half of [LowLevelPipeConnection._get] (the header, the quit
    test and the payload): what was read, as (format_string, req_num, data). *)
Definition _get_frame (self : nat) : M (list byte * Z * list byte) :=
  let! header_string := inpipe_read self 9 in
  if negb (length header_string =? 9)%nat then
    raise (mk_exn ConnectionReadError
             "Truncated header (problem probably originated remotely)")
  else
    let format_string := take 1 header_string in
    let req_num := _b2i (take 1 (drop 1 header_string)) in
    let length := _b2i (drop 2 header_string) in
    if format_is format_string "q" then
      raise (mk_exn ConnectionQuit "Received quit signal")
    else
      let! data :=
        try_except (_read self length)
          (fun e =>
             if isinstance e MemoryError
             then raise (mk_exn ConnectionReadError
                           "Impossibly high data amount evaluated in header (problem probably originated remotely)")
             else raise e) in
      ret (format_string, req_num, data).

(** Second half of [LowLevelPipeConnection._get]: the value that the
    payload stands for, by format character. *)
Definition _get_value (E : Env) (self : nat) (format_string data : list byte) : M value :=
  if format_is format_string "o" then lift (pickle_loads E data)
  else if format_is format_string "b" then ret (VBytes data)
  else if format_is format_string "f" then ret (VVirtualFile (PipeConnection self) (_b2i data))
  else if format_is format_string "i" then
    ret (VFileToMiscIter (VVirtualFile (PipeConnection self) (_b2i data)))
  else if format_is format_string "r" then _getrorpath E data
  else if format_is format_string "R" then _getrpath E data
  else if format_is format_string "Q" then _getqrpath E data
  else if format_is format_string "c" then
    let! c := connection_dict_getitem (VInt (_b2i data)) in ret (VConn c)
  else raise (mk_exn ConnectionReadError
                "Format character invalid (problem probably originated remotely)").

(** [LowLevelPipeConnection._get]: returns (req_num, result). *)
Definition _get (E : Env) (self : nat) : M (Z * value) :=
  let! (format_string, req_num, data) := _get_frame self in
  let! result := _get_value E self format_string data in
  ret (req_num, result).

(** [LowLevelPipeConnection._close]; [PipeConnection._close] adds the
    reaping of the child process, which touches nothing in the store. *)
Definition _close (self : nat) : M unit :=
  fun w => (Ok tt, set_obj self (set_closed true (attrs w self)) w).

(** ** The name resolver: [Connection._eval] *)

(** [s.split(sep)] for a one-character separator. *)
Fixpoint str_split (sep : ascii) (s : string) : list string :=
  match s with
  | EmptyString => [EmptyString]
  | String c rest =>
      if Ascii.eqb c sep then EmptyString :: str_split sep rest
      else match str_split sep rest with
           | [] => [String c EmptyString]
           | x :: xs => String c x :: xs
           end
  end.

(** [l.pop(0)]: the first element and what is left of the list. *)
Definition list_pop0 {A} (l : list A) : M (A * list A) :=
  match l with
  | [] => raise (mk_exn IndexError "pop from empty list")
  | x :: xs => ret (x, xs)
  end.

(** [cls.globals[name]]. *)
Definition globals_getitem (name : string) : M value :=
  fun w =>
    match globals w !! name with
    | Some v => (Ok v, w)
    | None => (Raise (mk_exn KeyError name), w)
    end.

(** [for elem in funclist: func = getattr(func, elem)]. *)
Fixpoint getattr_chain (E : Env) (func : value) (funclist : list string) : outcome value :=
  match funclist with
  | [] => Ok func
  | elem :: rest =>
      match py_getattr E func elem with
      | Some v => getattr_chain E v rest
      | None => Raise (mk_exn AttributeError elem)
      end
  end.

(** [Connection._eval].  Both forms of the test on [__builtins__] (a dict
    or a module) ask whether [firstelem] is one of its names. *)
Definition _eval (E : Env) (funcstring : string) : M value :=
  let funclist := str_split "." funcstring in
  let! (firstelem, funclist) := list_pop0 funclist in
  match builtins E !! firstelem with
  | Some b => ret b
  | None =>
      try_except
        (let! func := globals_getitem firstelem in
         lift (getattr_chain E func funclist))
        (fun e =>
           if isinstance e KeyError || isinstance e AttributeError
           then raise (mk_exn NameError ("name '" +:+ funcstring +:+ "' is not defined"))
           else raise e)
  end.

(** [Connection.import_modules]: the registry of names that can be
    evaluated across a connection. *)
Definition import_modules (E : Env) (globals : gmap string value) : gmap string value :=
  if bool_decide (is_Some (globals !! "map_filenames")) then globals
  else
    let modules : list (string * string) :=
      [("os", "os"); ("platform", "platform"); ("shutil", "shutil");
       ("robust", "rdiff_backup.robust"); ("rpath", "rdiff_backup.rpath");
       ("SetConnections", "rdiff_backup.SetConnections");
       ("_dir_shadow", "rdiffbackup.locations._dir_shadow");
       ("_repo_shadow", "rdiffbackup.locations._repo_shadow");
       ("map_filenames", "rdiffbackup.locations.map.filenames");
       ("consts", "rdiffbackup.singletons.consts");
       ("generics", "rdiffbackup.singletons.generics");
       ("log", "rdiffbackup.singletons.log");
       ("specifics", "rdiffbackup.singletons.specifics");
       ("stats", "rdiffbackup.singletons.stats")] in
    let globals :=
      fold_left (fun g '(name, module) => <[name := import_module E module]> g)
        modules globals in
    let local_elements : list (string * value) :=
      [("LocalConnection", VLocalConnectionClass);
       ("RedirectedRun", VRedirectedRun);
       ("VirtualFile", VVirtualFileClass)] in
    fold_left (fun g '(name, element) => <[name := element]> g) local_elements globals.

(** ** [PipeConnection] *)

(** [self.unused_request_numbers.add(req_num)]. *)
Definition unused_add (self : nat) (req_num : Z) : M unit :=
  fun w =>
    (Ok tt, set_obj self (set_unused ({[req_num]} ∪ unused w self) (attrs w self)) w).

(** [self.unused_request_numbers.remove(req_num)]. *)
Definition unused_remove (self : nat) (req_num : Z) : M unit :=
  fun w =>
    if bool_decide (req_num ∈ unused w self)
    then (Ok tt, set_obj self (set_unused (unused w self ∖ {[req_num]}) (attrs w self)) w)
    else (Raise (mk_exn KeyError (pretty req_num)), w).

(** [PipeConnection._get_new_req_num]. *)
Definition _get_new_req_num (E : Env) (self : nat) : M Z :=
  fun w =>
    if bool_decide (unused w self = ∅) then
      (Raise (mk_exn ConnectionError "Exhausted possible connection numbers"), w)
    else
      let r := set_pop E (unused w self) in
      (Ok r, set_obj self (set_unused (unused w self ∖ {[r]}) (attrs w self)) w).

(** [bool(result.errno)]: neither [None] nor zero. *)
Definition truthy (o : option Z) : bool :=
  match o with
  | Some z => negb (z =? 0)
  | None => false
  end.

(** [PipeConnection._extract_exception], for the active exception [result]
    (the logging left out).  The bare [raise] raises the exception as
    changed so far. *)
Definition _extract_exception (E : Env) (result : exn) : M value :=
  let result :=
    match errno result with
    | Some code =>
        if isinstance result OSError && truthy (errno result) then
          let name := default "EUNKWN" (errno_errorcode E !! code) in
          {| exc_type := exc_type result;
             message := message result;
             errno := errno result;
             strerror := "[original: Errno " +:+ pretty code +:+ " " +:+ name +:+ "] "
                         +:+ strerror result;
             errno_str := Some name |}
        else result
    | None => result
    end in
  if is_routine_fatal E result then raise result else ret (VExc result).

(** [hasattr(result, "errno_str")]. *)
Definition has_errno_str (e : exn) : bool :=
  match errno_str e with
  | Some _ => true
  | None => false
  end.

(** [getattr(errno, result.errno_str, result.errno)]. *)
Definition local_errno (E : Env) (e : exn) : option Z :=
  match errno_str e with
  | Some name =>
      match errno_module E !! name with
      | Some code => Some code
      | None => errno e
      end
  | None => errno e
  end.

(** The end of [PipeConnection.reval]: raise the result if it is an
    exception instance, after translating the code of an OS error, or
    return it. *)
Definition reval_result (E : Env) (result : value) : outcome value :=
  match result with
  | VExc e =>
      if isinstance e OSError && has_errno_str e then
        Raise {| exc_type := exc_type e;
                 message := message e;
                 errno := local_errno E e;
                 strerror := strerror e;
                 errno_str := errno_str e |}
      else if is_Exception (exc_type e) then Raise e
      else if isinstance e SystemExit then Raise e
      else if isinstance e KeyboardInterrupt then Raise e
      else Ok result
  | _ => Ok result
  end.

Section Engine.

Variable E : Env.

(** How a callable found by [_eval] is called: [func] on unpacked [args]. *)
Variable apply : value -> list value -> M value.

(** The loop of [PipeConnection._answer_request] that collects the
    arguments.  When the assertion on the request number fails, the
    message is built with [str.object], which a string does not have. *)
Fixpoint read_arguments (self : nat) (req_num : Z) (n : nat) : M (list value) :=
  match n with
  | O => ret []
  | S n' =>
      let! (arg_req_num, arg) := _get E self in
      if arg_req_num =? req_num then
        let! argument_list := read_arguments self req_num n' in
        ret (arg :: argument_list)
      else raise (mk_exn AttributeError "'str' object has no attribute 'object'")
  end.

(** The [try] block of [PipeConnection._answer_request] with its handler. *)
Definition evaluate_request (function_string : string) (num_args : Z)
    (argument_list : list value) : M value :=
  try_except
    (match vet_request E function_string num_args argument_list with
     | Some e => raise e
     | None =>
         let! func := _eval E function_string in
         apply func argument_list
     end)
    (fun e => _extract_exception E e).

(** [PipeConnection._answer_request], for the request
    [ConnectionRequest(function_string, num_args)]. *)
Definition _answer_request (self : nat) (function_string : string) (num_args : Z)
    (req_num : Z) : M unit :=
  let! _ := unused_remove self req_num in
  let! argument_list := read_arguments self req_num (Z.to_nat num_args) in
  let! result := evaluate_request function_string num_args argument_list in
  let! _ := _put E self result req_num in
  unused_add self req_num.

(** [PipeConnection._get_response]; [fuel] bounds the number of frames
    that the loop reads.  [None] stands for the quit signal caught
    around [_get]. *)
Fixpoint _get_response (fuel : nat) (self : nat) (desired_req_num : Z) : M value :=
  match fuel with
  | O => fun w => (OutOfFuel, w)
  | S fuel' =>
      let! got :=
        try_except (let! r := _get E self in ret (Some r))
          (fun e => if isinstance e ConnectionQuit then ret None else raise e) in
      match got with
      | None =>
          let! n := _get_new_req_num E self in
          let! _ := _put E self (VStr "quitting") n in
          let! _ := _close self in
          ret VNone
      | Some (req_num, object) =>
          if req_num =? desired_req_num then ret object
          else
            match object with
            | VRequest function_string num_args =>
                let! _ := _answer_request self function_string num_args req_num in
                _get_response fuel' self desired_req_num
            | _ => raise (mk_exn AssertionError "Object isn't a connection request")
            end
      end
  end.

(** [for arg in args: self._put(arg, req_num)]. *)
Fixpoint put_arguments (self : nat) (args : list value) (req_num : Z) : M unit :=
  match args with
  | [] => ret tt
  | arg :: rest =>
      let! _ := _put E self arg req_num in
      put_arguments self rest req_num
  end.

(** [PipeConnection.reval]. *)
Definition PipeConnection_reval (fuel : nat) (self : nat) (function_string : string)
    (args : list value) : M value :=
  let! req_num := _get_new_req_num E self in
  let! _ := _put E self (VRequest function_string (Z.of_nat (length args))) req_num in
  let! _ := put_arguments self args req_num in
  let! result := _get_response fuel self req_num in
  let! _ := unused_add self req_num in
  lift (reval_result E result).

(** [PipeConnection.Server]: answer requests until the quit signal. *)
Definition Server (fuel : nat) (self : nat) : M unit :=
  let! _ := _get_response fuel self (-1) in
  ret tt.

(** [LocalConnection.reval]. *)
Definition LocalConnection_reval (function_string : string) (args : list value) : M value :=
  let! func := _eval E function_string in
  apply func args.

(** [conn.reval] of [function_string] and [args] by the class of [conn];
    the last case is [RedirectedConnection.reval]. *)
Fixpoint Conn_reval (fuel : nat) (conn : Conn) (function_string : string)
    (args : list value) : M value :=
  match conn with
  | LocalConnection => LocalConnection_reval function_string args
  | PipeConnection self => PipeConnection_reval fuel self function_string args
  | RedirectedConnection conn_number _ routing_conn =>
      Conn_reval fuel routing_conn "RedirectedRun"
        (VInt conn_number :: VStr function_string :: args)
  end.

End Engine.

(** [RedirectedRun] of [conn_number], [func] and [args], given how connections
    evaluate ([reval]).  The message of the assertion reads
    [func.__name__], which a name passed as a string does not have.
    Connections take the name of the function as a string. *)
Definition RedirectedRun (reval : Conn -> string -> list value -> M value)
    (arguments : list value) : M value :=
  match arguments with
  | conn_number :: func :: args =>
      let! conn := connection_dict_getitem conn_number in
      if bool_decide (conn = LocalConnection) then
        match func with
        | VStr _ => raise (mk_exn AttributeError "'str' object has no attribute '__name__'")
        | _ => raise (mk_exn AssertionError
                        "A redirected run shouldn't be required locally")
        end
      else
        match func with
        | VStr function_string => reval conn function_string args
        | _ => raise (mk_exn TypeError "function name is not a string")
        end
  | _ => raise (mk_exn TypeError "RedirectedRun() missing required positional arguments")
  end.

(** Calling a callable: [RedirectedRun] is the one function of this
    module in the registry, the others belong to the environment.
    [fuel] bounds the nesting of calls and the loops below them. *)
Fixpoint apply_callable (E : Env) (fuel : nat) (func : value) (args : list value) : M value :=
  match fuel with
  | O => fun w => (OutOfFuel, w)
  | S fuel' =>
      match func with
      | VRedirectedRun =>
          RedirectedRun (Conn_reval E (apply_callable E fuel') fuel') args
      | _ => call_extern E func args
      end
  end.

(** [conn.reval] of [function_string] and [args]. *)
Definition reval (E : Env) (fuel : nat) (conn : Conn) (function_string : string)
    (args : list value) : M value :=
  Conn_reval E (apply_callable E fuel) fuel conn function_string args.

(** ** The wire format *)

(** The closed set of format characters, from the docstring of
    [LowLevelPipeConnection]. *)
Definition format_chars : list ascii :=
  ["o"; "i"; "f"; "b"; "q"; "R"; "Q"; "r"; "c"]%char.

(** One frame as it travels: the format byte, one byte of request
    number, seven bytes of length, then the payload. *)
Definition frame_bytes (format : byte) (req_num : Z) (data : list byte) : list byte :=
  format :: be_digits 1 req_num ++ be_digits 7 (Z.of_nat (length data)) ++ data.

(** A connection whose file objects are open and do not fail. *)
Definition healthy (w : World) (self : nat) : Prop :=
  closed (attrs w self) = false
  ∧ in_fault (attrs w self) = None
  ∧ out_fault (attrs w self) = None.

(** ** Further classes of the module *)

Definition set_globals (g : gmap string value) (w : World) : World :=
  {| objects := objects w;
     connection_dict := connection_dict w;
     local_conn_number := local_conn_number w;
     globals := g;
     _vfiles := _vfiles w;
     _counter := _counter w |}.

(** [Connection.__init__]: [self.import_modules()]. *)
Definition Connection_init (E : Env) : M unit :=
  fun w => (Ok tt, set_globals (import_modules E (globals w)) w).


(** [RedirectedConnection.__init__]. *)
Definition RedirectedConnection_init (E : Env) (conn_number routing_number : Z) : M Conn :=
  let! _ := Connection_init E in
  let! routing_conn := connection_dict_getitem (VInt routing_number) in
  ret (RedirectedConnection conn_number routing_number routing_conn).

(** [LocalConnection.__getattr__]. *)
Definition LocalConnection_getattr (E : Env) (name : string) : M value :=
  fun w =>
    match globals w !! name with
    | Some v => (Ok v, w)
    | None =>
        match builtins E !! name with
        | Some b => (Ok b, w)
        | None => (Raise (mk_exn KeyError name), w)
        end
    end.

Definition set_local_conn_number (n : Z) (w : World) : World :=
  {| objects := objects w;
     connection_dict := connection_dict w;
     local_conn_number := n;
     globals := globals w;
     _vfiles := _vfiles w;
     _counter := _counter w |}.

(** [LocalConnection.__setattr__]: every attribute of the local
    connection is an entry of [globals].  Its [conn_number], which the
    store also keeps in [local_conn_number] for [conn_number_of], follows
    an assignment of an integer. *)
Definition LocalConnection_setattr (name : string) (v : value) : M unit :=
  fun w =>
    let w' := set_globals (<[name := v]> (globals w)) w in
    match v with
    | VInt n =>
        if String.eqb name "conn_number" then (Ok tt, set_local_conn_number n w')
        else (Ok tt, w')
    | _ => (Ok tt, w')
    end.


(** [PipeConnection.quit]; [server] is [specifics.server]. *)
Definition quit (E : Env) (server : bool) (self : nat) : M unit :=
  if server then raise (mk_exn AssertionError "This function shouldn't run as server.")
  else
    let! _ := _putquit self in
    let! _ := _get E self in
    _close self.

(** An [EmulateCallable]: the connection and the dotted name so far. *)
Record EmulateCallable : Type := {
  connection : Conn;
  call_name : string
}.

(** [PipeConnection.__getattr__]. *)
Definition PipeConnection_getattr (self : nat) (name : string) : EmulateCallable :=
  {| connection := PipeConnection self; call_name := name |}.

(** [EmulateCallable.__getattr__]: ["%s.%s" % (self.call_name, attr_name)]. *)
Definition EmulateCallable_getattr (ec : EmulateCallable) (attr_name : string)
    : EmulateCallable :=
  {| connection := connection ec;
     call_name := call_name ec +:+ "." +:+ attr_name |}.

(** [EmulateCallable.__call__]. *)
Definition EmulateCallable_call (reval : Conn → string → list value → M value)
    (ec : EmulateCallable) (args : list value) : M value :=
  reval (connection ec) (call_name ec) args.

(** An [EmulateCallableRedirected]. *)
Record EmulateCallableRedirected : Type := {
  target_conn_number : Z;
  via_routing_conn : Conn;
  redirected_call_name : string
}.

(** [RedirectedConnection.__getattr__]; only a [RedirectedConnection]
    has the two attributes it reads. *)
Definition RedirectedConnection_getattr (c : Conn) (name : string)
    : option EmulateCallableRedirected :=
  match c with
  | RedirectedConnection conn_number _ routing_conn =>
      Some {| target_conn_number := conn_number;
              via_routing_conn := routing_conn;
              redirected_call_name := name |}
  | _ => None
  end.

(** [EmulateCallableRedirected.__getattr__]. *)
Definition EmulateCallableRedirected_getattr (ec : EmulateCallableRedirected)
    (attr_name : string) : EmulateCallableRedirected :=
  {| target_conn_number := target_conn_number ec;
     via_routing_conn := via_routing_conn ec;
     redirected_call_name := redirected_call_name ec +:+ "." +:+ attr_name |}.

(** [EmulateCallableRedirected.__call__]. *)
Definition EmulateCallableRedirected_call (reval : Conn → string → list value → M value)
    (ec : EmulateCallableRedirected) (args : list value) : M value :=
  reval (via_routing_conn ec) "RedirectedRun"
    (VInt (target_conn_number ec) :: VStr (redirected_call_name ec) :: args).

(** [cls._vfiles[id]]. *)
Definition _vfiles_getitem (id : value) : M value :=
  fun w =>
    match id with
    | VInt n =>
        match _vfiles w !! n with
        | Some fp => (Ok fp, w)
        | None => (Raise (mk_exn KeyError (pretty n)), w)
        end
    | _ => (Raise (mk_exn KeyError "id"), w)
    end.

(** [del cls._vfiles[id]], for a key that is there. *)
Definition _vfiles_delitem (id : value) : M unit :=
  fun w =>
    match id with
    | VInt n => (Ok tt, set_vfiles (delete n (_vfiles w)) (_counter w) w)
    | _ => (Ok tt, w)
    end.

Section VirtualFileServer.

(** The methods of the file objects in the table: [fp.read()] (length
    [None]) or [fp.read(length)], [fp.write(buffer)] and [fp.close()]. *)
Variable file_read : value → option value → M value.
Variable file_write : value → value → M value.
Variable file_close : value → M value.

(** [VirtualFile.readfromid]. *)
Definition VirtualFile_readfromid (id length : value) : M value :=
  match length with
  | VNone => let! fp := _vfiles_getitem id in file_read fp None
  | _ => let! fp := _vfiles_getitem id in file_read fp (Some length)
  end.

(** [VirtualFile.writetoid]. *)
Definition VirtualFile_writetoid (id buffer : value) : M value :=
  let! fp := _vfiles_getitem id in
  file_write fp buffer.

(** [VirtualFile.closebyid]. *)
Definition VirtualFile_closebyid (id : value) : M value :=
  let! fp := _vfiles_getitem id in
  let! _ := _vfiles_delitem id in
  file_close fp.

End VirtualFileServer.

(** [self.connection.VirtualFile.<method>(self.id, ...)], the body of
    [VirtualFile.read], [write] and [close] on the client: on a pipe
    connection the attribute chain builds the dotted name and the call
    is a [reval]; on the local connection the attributes are looked up
    and the method is called directly; a routed connection goes through
    its routing connection. *)
Definition VirtualFile_remote (E : Env) (reval : Conn → string → list value → M value)
    (apply : value → list value → M value) (connection : Conn) (method : string)
    (args : list value) : M value :=
  match connection with
  | PipeConnection self =>
      EmulateCallable_call reval
        (EmulateCallable_getattr (PipeConnection_getattr self "VirtualFile") method) args
  | LocalConnection =>
      let! cls := LocalConnection_getattr E "VirtualFile" in
      match py_getattr E cls method with
      | Some f => apply f args
      | None => raise (mk_exn AttributeError method)
      end
  | RedirectedConnection _ _ _ =>
      match RedirectedConnection_getattr connection "VirtualFile" with
      | Some ec =>
          EmulateCallableRedirected_call reval (EmulateCallableRedirected_getattr ec method) args
      | None => raise (mk_exn AttributeError "VirtualFile")
      end
  end.

(** [VirtualFile.read] of the handle [VirtualFile(connection, id)]. *)
Definition VirtualFile_read (E : Env) (reval : Conn → string → list value → M value)
    (apply : value → list value → M value) (connection : Conn) (id : Z) (length : value)
    : M value :=
  VirtualFile_remote E reval apply connection "readfromid" [VInt id; length].

(** [VirtualFile.write]. *)
Definition VirtualFile_write (E : Env) (reval : Conn → string → list value → M value)
    (apply : value → list value → M value) (connection : Conn) (id : Z) (buf : value)
    : M value :=
  VirtualFile_remote E reval apply connection "writetoid" [VInt id; buf].

(** [VirtualFile.close]. *)
Definition VirtualFile_close (E : Env) (reval : Conn → string → list value → M value)
    (apply : value → list value → M value) (connection : Conn) (id : Z) : M value :=
  VirtualFile_remote E reval apply connection "closebyid" [VInt id].

(** The state of the process when the module has been imported: the
    local connection is built ([import_modules], then [conn_number = 0],
    which [__setattr__] files under [globals]) and registered under
    number 0. *)
Definition module_init (E : Env) : World :=
  {| objects := ∅;
     connection_dict := {[ 0 := LocalConnection ]};
     local_conn_number := 0;
     globals := <["conn_number" := VInt 0]> (import_modules E ∅);
     _vfiles := ∅;
     _counter := -1 |}.

(** ** Notions used in the statements about requests *)

(** A computation that leaves the set of unused request numbers of the
    connection object [x] as it found it, however it ends. *)
Definition keeps_unused {A} (x : nat) (m : M A) : Prop :=
  ∀ w r w', m w = (r, w') → unused w' x = unused w x.

(** The frames (format byte and payload) of one request number, as they
    follow one another in a pipe. *)
Definition frames_bytes (req_num : Z) (frames : list (byte * list byte)) : list byte :=
  flat_map (fun frame => frame_bytes (fst frame) req_num (snd frame)) frames.

(** The frame is not the quit signal, its payload is within the bound,
    and its payload stands for the value [v] on the receiving side
    (whatever that side's pipes hold). *)
Definition decodes (E : Env) (self : nat) (w : World) (frame : byte * list byte)
    (v : value) : Prop :=
  fst frame ≠ "q"%byte
  ∧ Z.of_nat (length (snd frame)) < 2 ^ 56
  ∧ ∀ w', connection_dict w' = connection_dict w →
          _get_value E self [fst frame] (snd frame) w' = (Ok v, w').

(** ** Notions used in the statements about marshalling *)


(** What the sender wrote between [ws] and [ws'] makes [_get] on the
    receiving connection return [v'] under [req_num], whenever these
    bytes are what the receiver's pipe holds next, and [_get] reads
    nothing beyond them. *)
Definition delivers (Er : Env) (sender receiver : nat) (ws ws' wr : World)
    (req_num : Z) (v' : value) : Prop :=
  ∃ sent,
    outpipe (attrs ws' sender) = outpipe (attrs ws sender) ++ sent
    ∧ ∀ rest,
        inpipe (attrs wr receiver) = sent ++ rest →
        _get Er receiver wr
        = (Ok (req_num, v'), set_obj receiver (set_inpipe rest (attrs wr receiver)) wr).

(** A computation after which the connection object [x] has no unused
    request number that it did not have before, apart from those in
    [extra]. *)
Definition gains_at_most {A} (x : nat) (extra : gset Z) (m : M A) : Prop :=
  ∀ w r w', m w = (r, w') → unused w' x ⊆ extra ∪ unused w x.

(** ** Notions used in the statements about names *)

(** The names under which [import_modules] files modules and local
    elements in [globals], in the order of the source. *)
Definition registry_names : list string :=
  ["os"; "platform"; "shutil"; "robust"; "rpath"; "SetConnections";
   "_dir_shadow"; "_repo_shadow"; "map_filenames"; "consts"; "generics";
   "log"; "specifics"; "stats";
   "LocalConnection"; "RedirectedRun"; "VirtualFile"].



(** Every id in the table of virtual files was handed out by the
    counter. *)
Definition vfiles_below_counter (w : World) : Prop :=
  ∀ id, is_Some (_vfiles w !! id) → id ≤ _counter w.

(** ** A small session for the examples *)

(** A toy serialiser for the few shapes the examples send as objects. *)
Definition demo_dumps (v : value) : list byte :=
  match v with
  | VNone => ["N"%byte]
  | VInt z => "I"%byte :: be_digits 8 z
  | VStr s => "S"%byte :: list_byte_of_string s
  | VRequest function_string num_args =>
      "C"%byte :: byte_of_Z num_args :: list_byte_of_string function_string
  | VExc e =>
      "E"%byte :: byte_of_Z (default 0 (errno e))
        :: list_byte_of_string (default "" (errno_str e))
  | _ => ["?"%byte]
  end.

Definition demo_loads (b : list byte) : outcome value :=
  match b with
  | ["N"%byte] => Ok VNone
  | "I"%byte :: digits => Ok (VInt (from_bytes digits))
  | "S"%byte :: chars => Ok (VStr (string_of_list_byte chars))
  | "C"%byte :: n :: chars => Ok (VRequest (string_of_list_byte chars) (byte_to_Z n))
  | "E"%byte :: code :: chars =>
      Ok (VExc {| exc_type := OSError; message := ""; errno := Some (byte_to_Z code);
                  strerror := ""; errno_str := Some (string_of_list_byte chars) |})
  | _ => Raise (mk_exn (OtherException "UnpicklingError") "invalid load key")
  end.

Definition demo_set_pop (s : gset Z) : Z := default 0 (head (elements s)).

Definition demo_getattr (v : value) (name : string) : option value :=
  match v with
  | VModule path => if String.eqb path "os" && String.eqb name "getuid"
                    then Some (VObject "os.getuid") else None
  | VVirtualFileClass => if String.eqb name "readfromid"
                         then Some (VObject "VirtualFile.readfromid") else None
  | _ => None
  end.

Definition demo_call (func : value) (args : list value) : M value :=
  match func, args with
  | VObject name, [VStr s] =>
      if String.eqb name "len" then ret (VInt (Z.of_nat (String.length s)))
      else raise (mk_exn TypeError "object is not callable")
  | VObject name, [VBytes b] =>
      if String.eqb name "len" then ret (VInt (Z.of_nat (length b)))
      else raise (mk_exn TypeError "object is not callable")
  | _, _ => raise (mk_exn TypeError "object is not callable")
  end.

(** Two platforms that number [EAGAIN] differently. *)
Definition demo_env (eagain : Z) : Env :=
  {| pickle_dumps := demo_dumps;
     pickle_loads := demo_loads;
     set_pop := demo_set_pop;
     errno_errorcode := {[ 2 := "ENOENT"; 13 := "EACCES"; eagain := "EAGAIN" ]};
     errno_module := {[ "ENOENT" := 2; "EACCES" := 13; "EAGAIN" := eagain ]};
     is_routine_fatal := fun e => isinstance e KeyboardInterrupt || isinstance e ConnectionError;
     vet_request := fun _ _ _ => None;
     builtins := {[ "len" := VObject "len"; "pow" := VObject "pow" ]};
     py_getattr := demo_getattr;
     import_module := VModule;
     call_extern := demo_call |}.

Definition demo_linux : Env := demo_env 11.
Definition demo_bsd : Env := demo_env 35.

(** A process with one pipe connection, object [0], whose [inpipe]
    holds [input]. *)
Definition demo_obj (input : list byte) : PipeObj :=
  {| inpipe := input; in_fault := None; outpipe := []; out_fault := None;
     closed := false; conn_number := 1;
     unused_request_numbers := list_to_set (seqZ 0 256) |}.

Definition demo_world (input : list byte) : World :=
  {| objects := {[ 0%nat := demo_obj input ]};
     connection_dict := {[ 0 := LocalConnection; 1 := PipeConnection 0 ]};
     local_conn_number := 0;
     globals := import_modules demo_linux ∅;
     _vfiles := ∅;
     _counter := -1 |}.

(** What the caller of [reval] finds in its pipe in the examples: a
    request of the other side for [len("hello")] under number 7, then
    the response to its own request under number 255. *)
Definition demo_reentrant_input : list byte :=
  frame_bytes "o" 7 (demo_dumps (VRequest "len" 1))
  ++ frame_bytes "o" 7 (demo_dumps (VStr "hello"))
  ++ frame_bytes "b" 255 ["o"; "k"]%byte.


(** A serialiser for the two tuples of the path examples, told apart by
    their length. *)
Definition demo_path_env : Env :=
  {| pickle_dumps := fun v => match v with
                              | VTuple items => [byte_of_Z (Z.of_nat (length items))]
                              | _ => []
                              end;
     pickle_loads := fun b => match b with
                              | ["004"%byte] => Ok (VTuple [VInt 1; VStr "/srv"; VTuple []; VNone])
                              | ["002"%byte] => Ok (VTuple [VTuple []; VNone])
                              | _ => Raise (mk_exn (OtherException "UnpicklingError") "")
                              end;
     set_pop := demo_set_pop;
     errno_errorcode := ∅;
     errno_module := ∅;
     is_routine_fatal := fun _ => false;
     vet_request := fun _ _ _ => None;
     builtins := ∅;
     py_getattr := demo_getattr;
     import_module := VModule;
     call_extern := demo_call |}.

(** An environment whose security gate refuses every request. *)
Definition demo_strict : Env :=
  {| pickle_dumps := demo_dumps;
     pickle_loads := demo_loads;
     set_pop := demo_set_pop;
     errno_errorcode := ∅;
     errno_module := ∅;
     is_routine_fatal := fun e => isinstance e KeyboardInterrupt || isinstance e ConnectionError;
     vet_request := fun _ _ _ => Some (mk_exn (OtherException "Violation") "forbidden");
     builtins := {[ "len" := VObject "len" ]};
     py_getattr := demo_getattr;
     import_module := VModule;
     call_extern := demo_call |}.

(** A callable that is interrupted from the keyboard. *)
Definition demo_interrupted (func : value) (args : list value) : M value :=
  raise (mk_exn KeyboardInterrupt "").

(** The argument frames of a call whose arguments are all byte buffers. *)
Definition buffer_frames (bufs : list (list byte)) : list (byte * list byte) :=
  map (fun buf => ("b"%byte, buf)) bufs.

(** A callable that hands its one buffer argument back. *)
Definition demo_echo (func : value) (args : list value) : M value :=
  match args with
  | [VBytes buf] => ret (VBytes buf)
  | _ => raise (mk_exn TypeError "expected one buffer")
  end.

(** * Properties *)

(** ** The store *)

Lemma attrs_set_obj self o w : attrs (set_obj self o w) self = o.
Proof. unfold attrs, set_obj; simpl. apply lookup_total_insert_eq. Qed.

Lemma attrs_set_obj_ne self other o w :
  self ≠ other → attrs (set_obj self o w) other = attrs w other.
Proof. intros Hne. unfold attrs, set_obj; simpl. by apply lookup_total_insert_ne. Qed.

Lemma set_obj_twice self o1 o2 w : set_obj self o2 (set_obj self o1 w) = set_obj self o2 w.
Proof. unfold set_obj; simpl. f_equal. apply insert_insert_eq. Qed.

(** ** Bytes and integers *)

Lemma byte_to_Z_range b : 0 ≤ byte_to_Z b < 256.
Proof.
  unfold byte_to_Z. pose proof (Byte.to_N_bounded b). lia.
Qed.

Lemma byte_to_of_Z z : 0 ≤ z < 256 → byte_to_Z (byte_of_Z z) = z.
Proof.
  intros Hz. unfold byte_to_Z, byte_of_Z.
  destruct (Byte.of_N (Z.to_N z)) as [b|] eqn:Hb.
  - apply Byte.to_of_N in Hb. rewrite Hb. lia.
  - apply Byte.of_N_None_iff in Hb. lia.
Qed.

Lemma byte_of_to_Z b : byte_of_Z (byte_to_Z b) = b.
Proof.
  unfold byte_to_Z, byte_of_Z. rewrite N2Z.id, Byte.of_to_N. reflexivity.
Qed.

Lemma from_bytes_snoc l b : from_bytes (l ++ [b]) = from_bytes l * 256 + byte_to_Z b.
Proof. unfold from_bytes. rewrite fold_left_app. reflexivity. Qed.

Lemma be_digits_length n i : length (be_digits n i) = n.
Proof.
  revert i. induction n as [|n IH]; intros i; simpl; [reflexivity|].
  rewrite length_app, IH. simpl. lia.
Qed.

(** Reading back [n] digits gives the number modulo [256 ^ n]. *)
Lemma from_bytes_be_digits n i :
  0 ≤ i → from_bytes (be_digits n i) = i mod 256 ^ Z.of_nat n.
Proof.
  revert i. induction n as [|n IH]; intros i Hi.
  - simpl. rewrite Z.mod_1_r. reflexivity.
  - cbn [be_digits]. rewrite from_bytes_snoc, IH by (apply Z.div_pos; lia).
    rewrite byte_to_of_Z by (apply Z.mod_pos_bound; lia).
    rewrite Nat2Z.inj_succ, Z.pow_succ_r by lia.
    rewrite (Z.rem_mul_r i 256 (256 ^ Z.of_nat n)) by lia. lia.
Qed.

Lemma from_bytes_be_digits_small n i :
  0 ≤ i < 256 ^ Z.of_nat n → from_bytes (be_digits n i) = i.
Proof.
  intros Hi. rewrite from_bytes_be_digits by lia. apply Z.mod_small. lia.
Qed.

(** A non-negative integer fits in the number of bytes that [_i2b]
    computes from its bit length. *)
Lemma bit_length_bytes i : 0 ≤ i → 0 ≤ (bit_length i + 7) / 8 ∧ i < 256 ^ ((bit_length i + 7) / 8).
Proof.
  intros Hi. unfold bit_length.
  destruct (Z.eqb_spec i 0) as [->|Hne].
  - simpl. split; [discriminate | reflexivity].
  - assert (Hpos : 0 < i) by lia.
    rewrite Z.abs_eq by lia.
    pose proof (Z.log2_nonneg i) as Hl.
    pose proof (Z.log2_spec i Hpos) as [_ Hup].
    set (k := (Z.log2 i + 1 + 7) / 8).
    assert (Hk : Z.log2 i + 1 ≤ 8 * k).
    { unfold k. pose proof (Z.div_mod (Z.log2 i + 1 + 7) 8 ltac:(lia)).
      pose proof (Z.mod_pos_bound (Z.log2 i + 1 + 7) 8 ltac:(lia)). lia. }
    assert (Hk0 : 0 ≤ k) by (unfold k; apply Z.div_pos; lia).
    split; [exact Hk0|].
    change 256 with (2 ^ 8). rewrite <- Z.pow_mul_r by lia.
    eapply Z.lt_le_trans; [exact Hup|].
    apply Z.pow_le_mono_r; lia.
Qed.

Lemma _i2b_minimal i :
  0 ≤ i → _i2b i 0 = Ok (be_digits (Z.to_nat ((bit_length i + 7) / 8)) i).
Proof.
  intros Hi. destruct (bit_length_bytes i Hi) as [Hk Hlt].
  unfold _i2b, to_bytes. simpl (0 =? 0).
  cbv iota.
  destruct (Z.ltb_spec ((bit_length i + 7) / 8) 0); [lia|].
  destruct (Z.ltb_spec i 0); [lia|].
  destruct (Z.leb_spec (256 ^ ((bit_length i + 7) / 8)) i); [lia|].
  reflexivity.
Qed.

Lemma _i2b_sized i size :
  0 < size → 0 ≤ i < 256 ^ size → _i2b i size = Ok (be_digits (Z.to_nat size) i).
Proof.
  intros Hs Hi. unfold _i2b, to_bytes.
  destruct (Z.eqb_spec size 0); [lia|].
  destruct (Z.ltb_spec size 0); [lia|].
  destruct (Z.ltb_spec i 0); [lia|].
  destruct (Z.leb_spec (256 ^ size) i); [lia|].
  reflexivity.
Qed.

Lemma _i2b_overflow i size :
  0 < size → 256 ^ size ≤ i → ∃ e, _i2b i size = Raise e ∧ exc_type e = OverflowError.
Proof.
  intros Hs Hi. unfold _i2b, to_bytes.
  destruct (Z.eqb_spec size 0); [lia|].
  destruct (Z.ltb_spec size 0); [lia|].
  assert (0 < 256 ^ size) by (apply Z.pow_pos_nonneg; lia).
  destruct (Z.ltb_spec i 0); [lia|].
  destruct (Z.leb_spec (256 ^ size) i); [|lia].
  eexists; split; reflexivity.
Qed.

(** ** Frames *)

Lemma byte_eqb_refl b : Byte.eqb b b = true.
Proof. apply Byte.byte_dec_lb. reflexivity. Qed.

Lemma byte_eqb_ne a b : a ≠ b → Byte.eqb a b = false.
Proof.
  intros Hne. destruct (Byte.eqb a b) eqn:Heq; [|reflexivity].
  apply Byte.byte_dec_bl in Heq. contradiction.
Qed.

Lemma be_digits_1 n : be_digits 1 n = [byte_of_Z (n mod 256)].
Proof. reflexivity. Qed.

Lemma frame_bytes_split format req_num data :
  frame_bytes format req_num data
  = (format :: byte_of_Z (req_num mod 256) :: be_digits 7 (Z.of_nat (length data))) ++ data.
Proof. unfold frame_bytes. rewrite be_digits_1. reflexivity. Qed.

(** What [_write] appends to [outpipe] for a frame within the bounds. *)
Lemma _write_emits self (c : ascii) data req_num w :
  (N_of_ascii c < 128)%N →
  healthy w self →
  0 ≤ req_num ≤ 255 →
  Z.of_nat (length data) < 2 ^ 56 →
  _write self (String c EmptyString) data req_num w
  = (Ok tt,
     set_obj self
       (set_outpipe (outpipe (attrs w self) ++ frame_bytes (byte_of_ascii c) req_num data)
          (attrs w self)) w).
Proof.
  intros Hc (Hclosed & _ & Hout) Hn Hlen.
  unfold _write. cbn [String.length Nat.eqb negb encode_ascii].
  apply N.ltb_lt in Hc. rewrite Hc.
  unfold bind at 1. unfold lift at 1. unfold try_except, bind, lift.
  rewrite (_i2b_sized req_num 1) by lia.
  rewrite (_i2b_sized (Z.of_nat (length data)) 7) by (change (256 ^ 7) with (2 ^ 56); lia).
  unfold outpipe_write at 1. rewrite Hclosed, Hout.
  unfold outpipe_write. rewrite attrs_set_obj. cbn [closed out_fault set_outpipe].
  rewrite Hclosed, Hout.
  unfold outpipe_flush. rewrite attrs_set_obj. cbn [closed out_fault set_outpipe].
  rewrite Hclosed, Hout, set_obj_twice.
  unfold frame_bytes, set_outpipe.
  cbn [outpipe inpipe in_fault out_fault closed conn_number unused_request_numbers].
  change (Z.to_nat 1) with 1%nat. change (Z.to_nat 7) with 7%nat.
  rewrite <- !app_assoc. reflexivity.
Qed.

(** What [_get] reads back from such a frame, for any format byte but
    the quit signal. *)
Lemma _get_frame_reads self format req_num data rest w :
  healthy w self →
  inpipe (attrs w self) = frame_bytes format req_num data ++ rest →
  0 ≤ req_num ≤ 255 →
  Z.of_nat (length data) < 2 ^ 56 →
  format ≠ "q"%byte →
  _get_frame self w
  = (Ok ([format], req_num, data), set_obj self (set_inpipe rest (attrs w self)) w).
Proof.
  intros (Hclosed & Hin & _) Hpipe Hn Hlen Hq.
  assert (Hlen7 : length (be_digits 7 (Z.of_nat (length data))) = 7%nat)
    by apply be_digits_length.
  unfold _get_frame, bind.
  unfold inpipe_read at 1. rewrite Hclosed, Hin, Hpipe.
  change (9 <? 0) with false. cbv iota.
  rewrite frame_bytes_split, <- app_assoc.
  set (lenb := be_digits 7 (Z.of_nat (length data))) in *.
  set (hdr := format :: byte_of_Z (req_num mod 256) :: lenb).
  assert (Hhdr : length hdr = 9%nat) by (unfold hdr; simpl; lia).
  rewrite (take_app_length' hdr) by (rewrite Hhdr; reflexivity).
  rewrite (drop_app_length' hdr) by (rewrite Hhdr; reflexivity).
  rewrite Hhdr. cbn [Nat.eqb negb].
  unfold hdr. cbn [take drop format_is].
  rewrite take_0, drop_0, byte_eqb_ne by assumption.
  unfold _b2i.
  change [byte_of_Z (req_num mod 256)] with (be_digits 1 req_num).
  rewrite (from_bytes_be_digits_small 1) by (change (256 ^ Z.of_nat 1) with 256; lia).
  unfold lenb. rewrite (from_bytes_be_digits_small 7)
    by (change (256 ^ Z.of_nat 7) with (2 ^ 56); lia).
  unfold try_except, _read, try_except, inpipe_read.
  rewrite attrs_set_obj. cbn [closed in_fault inpipe set_inpipe].
  rewrite Hclosed, Hin.
  destruct (Z.ltb_spec (Z.of_nat (length data)) 0) as [Hneg|_]; [lia|].
  rewrite Nat2Z.id, take_app_length, drop_app_length, set_obj_twice.
  unfold ret. reflexivity.
Qed.

(** A frame whose format byte is the quit signal: only the header is
    read, whatever its last eight bytes are. *)
Lemma _get_frame_quit self fields rest w :
  healthy w self →
  length fields = 8%nat →
  inpipe (attrs w self) = ("q"%byte :: fields) ++ rest →
  _get_frame self w
  = (Raise (mk_exn ConnectionQuit "Received quit signal"),
     set_obj self (set_inpipe rest (attrs w self)) w).
Proof.
  intros (Hclosed & Hin & _) Hfields Hpipe.
  unfold _get_frame, bind.
  unfold inpipe_read at 1. rewrite Hclosed, Hin, Hpipe.
  change (9 <? 0) with false. cbv iota.
  assert (Hhdr : length ("q"%byte :: fields) = 9%nat) by (simpl; lia).
  rewrite (take_app_length' ("q"%byte :: fields)) by (rewrite Hhdr; reflexivity).
  rewrite (drop_app_length' ("q"%byte :: fields)) by (rewrite Hhdr; reflexivity).
  rewrite Hhdr. cbn [Nat.eqb negb take format_is Byte.eqb].
  reflexivity.
Qed.

Lemma format_chars_ascii (T : ascii) :
  T ∈ format_chars → (N_of_ascii T < 128)%N.
Proof.
  intros H. apply list_elem_of_In in H. unfold format_chars in H. simpl in H.
  repeat (destruct H as [<- | H]; [reflexivity|]). contradiction.
Qed.

Lemma format_chars_not_quit (T : ascii) :
  T ∈ format_chars → T ≠ "q"%char → byte_of_ascii T ≠ "q"%byte.
Proof.
  intros H Hq. apply list_elem_of_In in H. unfold format_chars in H. simpl in H.
  repeat (destruct H as [<- | H]; [first [discriminate | contradiction] |]).
  contradiction.
Qed.

(** C1, as the code has it.  For every format character [T] of the closed
    set other than the quit signal, every request number [n] in [0, 255]
    and every payload [P] shorter than 2^56 bytes: [_write] succeeds and
    appends some bytes [sent] to the sender's pipe, and when those bytes
    arrive on a receiver's pipe, [_get] reads back the format [T], the
    number [n] and the payload [P], consumes exactly [sent], and returns
    [n] with the value that [P] stands for under [T]. *)
Theorem frame_round_trip (E : Env) (sender receiver : nat) (ws wr : World)
    (T : ascii) (n : Z) (P rest : list byte) :
  T ∈ format_chars →
  T ≠ "q"%char →
  0 ≤ n ≤ 255 →
  Z.of_nat (length P) < 2 ^ 56 →
  healthy ws sender →
  healthy wr receiver →
  ∃ ws' sent,
    _write sender (String T EmptyString) P n ws = (Ok tt, ws')
    ∧ outpipe (attrs ws' sender) = outpipe (attrs ws sender) ++ sent
    ∧ (inpipe (attrs wr receiver) = sent ++ rest →
       let wr' := set_obj receiver (set_inpipe rest (attrs wr receiver)) wr in
       _get_frame receiver wr = (Ok ([byte_of_ascii T], n, P), wr')
       ∧ _get E receiver wr
         = (let! result := _get_value E receiver [byte_of_ascii T] P in ret (n, result)) wr').
Proof.
  intros HT Hq Hn Hlen Hs Hr.
  eexists _, (frame_bytes (byte_of_ascii T) n P).
  split; [apply _write_emits; auto using format_chars_ascii|].
  split; [rewrite attrs_set_obj; reflexivity|].
  intros Hpipe wr'.
  assert (Hframe : _get_frame receiver wr = (Ok ([byte_of_ascii T], n, P), wr'))
    by (apply _get_frame_reads; auto using format_chars_not_quit).
  split; [exact Hframe|].
  unfold _get. unfold bind at 1. rewrite Hframe. reflexivity.
Qed.

Lemma frame_round_trip_witness :
  ∃ ws' sent,
    _write 0 "b" ["h"; "i"]%byte 7 (demo_world []) = (Ok tt, ws')
    ∧ outpipe (attrs ws' 0) = outpipe (attrs (demo_world []) 0) ++ sent
    ∧ (inpipe (attrs (demo_world (frame_bytes "b" 7 ["h"; "i"]%byte)) 0) = sent ++ [] →
       let wr := demo_world (frame_bytes "b" 7 ["h"; "i"]%byte) in
       let wr' := set_obj 0 (set_inpipe [] (attrs wr 0)) wr in
       _get_frame 0 wr = (Ok (["b"%byte], 7, ["h"; "i"]%byte), wr')
       ∧ _get demo_linux 0 wr
         = (let! result := _get_value demo_linux 0 ["b"%byte] ["h"; "i"]%byte in
            ret (7, result)) wr').
Proof.
  apply (frame_round_trip demo_linux 0 0 (demo_world [])
           (demo_world (frame_bytes "b" 7 ["h"; "i"]%byte)) "b" 7 ["h"; "i"]%byte []).
  - unfold format_chars. apply list_elem_of_In. simpl. tauto.
  - discriminate.
  - lia.
  - simpl. lia.
  - repeat split; reflexivity.
  - repeat split; reflexivity.
Defined.

(** C1 as stated fails for the format character of the quit signal,
    which is in the closed set: the frame that [_write] emitted for it is
    not returned by [_get], which raises [ConnectionQuit]. *)
Lemma frame_round_trip_not_for_quit :
  "q"%char ∈ format_chars
  ∧ ∃ ws',
      _write 0 "q" [] 255 (demo_world []) = (Ok tt, ws')
      ∧ fst (_get_frame 0 (demo_world (outpipe (attrs ws' 0))))
        = Raise (mk_exn ConnectionQuit "Received quit signal")
      ∧ fst (_get demo_linux 0 (demo_world (outpipe (attrs ws' 0))))
        = Raise (mk_exn ConnectionQuit "Received quit signal").
Proof.
  split.
  - unfold format_chars. apply list_elem_of_In. simpl. tauto.
  - eexists. split; [vm_compute; reflexivity|].
    split; vm_compute; reflexivity.
Qed.

(** C3, as the code has it.  For every incoming frame whose format byte
    is the quit signal, whatever its request-number byte and its seven
    length bytes are, [_get] raises [ConnectionQuit] after the nine bytes
    of the header: the payload that the length field announces stays in
    the pipe. *)
Theorem quit_frame_stops_after_header (E : Env) (self : nat) (w : World)
    (req_num : byte) (length_field payload rest : list byte) :
  healthy w self →
  length length_field = 7%nat →
  Z.of_nat (length payload) = _b2i length_field →
  inpipe (attrs w self) = ("q"%byte :: req_num :: length_field) ++ payload ++ rest →
  _get E self w
  = (Raise (mk_exn ConnectionQuit "Received quit signal"),
     set_obj self (set_inpipe (payload ++ rest) (attrs w self)) w).
Proof.
  intros Hh Hlen _ Hpipe.
  unfold _get, bind.
  rewrite (_get_frame_quit self (req_num :: length_field) (payload ++ rest) w Hh);
    [reflexivity | simpl; lia | exact Hpipe].
Qed.

Lemma quit_frame_stops_after_header_witness :
  _get demo_linux 0 (demo_world (frame_bytes "q" 255 ["a"; "b"; "c"]%byte ++ ["z"%byte]))
  = (Raise (mk_exn ConnectionQuit "Received quit signal"),
     set_obj 0
       (set_inpipe (["a"; "b"; "c"]%byte ++ ["z"%byte])
          (attrs (demo_world (frame_bytes "q" 255 ["a"; "b"; "c"]%byte ++ ["z"%byte])) 0))
       (demo_world (frame_bytes "q" 255 ["a"; "b"; "c"]%byte ++ ["z"%byte]))).
Proof.
  apply (quit_frame_stops_after_header demo_linux 0 _ "255"%byte
           (be_digits 7 3) ["a"; "b"; "c"]%byte ["z"%byte]).
  - repeat split; reflexivity.
  - reflexivity.
  - reflexivity.
  - reflexivity.
Defined.

(** C3 as stated fails: after the quit frame is read, its payload has not
    been drained.  With a length field of 3, the three payload bytes are
    still the next bytes of the pipe. *)
Lemma quit_frame_payload_not_drained :
  let w := demo_world (frame_bytes "q" 255 ["a"; "b"; "c"]%byte) in
  fst (_get demo_linux 0 w) = Raise (mk_exn ConnectionQuit "Received quit signal")
  ∧ inpipe (attrs (snd (_get demo_linux 0 w)) 0) = ["a"; "b"; "c"]%byte
  ∧ inpipe (attrs (snd (_get demo_linux 0 w)) 0) ≠ [].
Proof.
  split; [vm_compute; reflexivity|].
  split; [vm_compute; reflexivity|].
  vm_compute. discriminate.
Qed.

Lemma _i2b_cases i size :
  0 < size →
  (0 ≤ i < 256 ^ size ∧ _i2b i size = Ok (be_digits (Z.to_nat size) i))
  ∨ (¬ 0 ≤ i < 256 ^ size ∧ ∃ e, _i2b i size = Raise e ∧ exc_type e = OverflowError).
Proof.
  intros Hs. unfold _i2b, to_bytes.
  destruct (Z.eqb_spec size 0); [lia|].
  destruct (Z.ltb_spec size 0); [lia|].
  destruct (Z.ltb_spec i 0).
  - right. split; [lia|]. eexists; split; reflexivity.
  - destruct (Z.leb_spec (256 ^ size) i).
    + right. split; [lia|]. eexists; split; reflexivity.
    + left. split; [lia | reflexivity].
Qed.

(** C6.  For every attempt to emit a frame whose payload is 2^56 bytes or
    longer, or whose request number is above 255, [_write] raises and
    leaves the store as it was: no byte reaches the pipe.  The exception
    is the [OverflowError] of [_i2b], unless the header character was
    already refused. *)
Theorem frame_out_of_bounds_not_written (self : nat) (headerchar : string)
    (data : list byte) (req_num : Z) (w : World) :
  2 ^ 56 ≤ Z.of_nat (length data) ∨ 255 < req_num →
  ∃ e,
    _write self headerchar data req_num w = (Raise e, w)
    ∧ (exc_type e = OverflowError
       ∨ exc_type e = AssertionError
       ∨ exc_type e = UnicodeEncodeError).
Proof.
  intros Hbig. unfold _write.
  destruct (String.length headerchar =? 1)%nat eqn:Hone; cbn [negb].
  2:{ eexists. split; [reflexivity|]. right; left; reflexivity. }
  destruct headerchar as [|c [|c' s']]; try discriminate Hone.
  cbn [encode_ascii].
  destruct (N_of_ascii c <? 128)%N.
  2:{ eexists. split; [reflexivity|]. right; right; reflexivity. }
  unfold bind at 1. unfold lift at 1. unfold try_except, bind, lift.
  destruct (_i2b_cases req_num 1 ltac:(lia)) as [[Hr ->] | [_ (e & -> & He)]].
  - change (256 ^ 1) with 256 in Hr.
    destruct (_i2b_cases (Z.of_nat (length data)) 7 ltac:(lia))
      as [[Hl _] | [_ (e & -> & He)]].
    + change (256 ^ 7) with (2 ^ 56) in Hl. lia.
    + exists e. unfold isinstance. rewrite He. cbn. split; [reflexivity | left; reflexivity].
  - exists e. unfold isinstance. rewrite He. cbn. split; [reflexivity | left; reflexivity].
Qed.

Lemma frame_out_of_bounds_not_written_witness :
  ∃ e,
    _write 0 "b" ["h"; "i"]%byte 256 (demo_world []) = (Raise e, demo_world [])
    ∧ (exc_type e = OverflowError
       ∨ exc_type e = AssertionError
       ∨ exc_type e = UnicodeEncodeError).
Proof.
  apply (frame_out_of_bounds_not_written 0 "b" ["h"; "i"]%byte 256 (demo_world [])).
  right. lia.
Defined.

(** C9.  For every non-negative integer [i], [_b2i] gives [i] back from
    the bytes that [_i2b] makes of it; zero is encoded as the empty byte
    string; so the frame that [_putconn] writes for a connection whose
    number is 0 has format [c] and a payload of no bytes, and [_get]
    decodes it to the connection registered under 0 on the receiving
    side. *)
Theorem integer_codec_round_trip (E : Env) (i : Z) (sender receiver : nat)
    (ws wr : World) (pipeconn peer : Conn) (req_num : Z) (rest : list byte) :
  0 ≤ i →
  conn_number_of ws pipeconn = 0 →
  0 ≤ req_num ≤ 255 →
  healthy ws sender →
  healthy wr receiver →
  connection_dict wr !! 0 = Some peer →
  inpipe (attrs wr receiver) = frame_bytes "c" req_num [] ++ rest →
  (∃ b, _i2b i 0 = Ok b ∧ _b2i b = i)
  ∧ _i2b 0 0 = Ok []
  ∧ (∃ ws',
       _putconn sender pipeconn req_num ws = (Ok tt, ws')
       ∧ outpipe (attrs ws' sender)
         = outpipe (attrs ws sender) ++ frame_bytes "c" req_num [])
  ∧ _get E receiver wr
    = (Ok (req_num, VConn peer),
       set_obj receiver (set_inpipe rest (attrs wr receiver)) wr).
Proof.
  intros Hi Hzero Hn Hs Hr Hpeer Hpipe.
  split.
  { eexists. split; [apply _i2b_minimal; exact Hi|].
    destruct (bit_length_bytes i Hi) as [Hk Hlt].
    unfold _b2i. apply from_bytes_be_digits_small. rewrite Z2Nat.id by lia. lia. }
  split; [reflexivity|].
  split.
  { eexists. split.
    - unfold _putconn, bind, get_conn_number, lift. rewrite Hzero.
      change (_i2b 0 0) with (@Ok (list byte) []).
      apply (_write_emits sender "c" [] req_num ws); [reflexivity | exact Hs | lia |].
      simpl. lia.
    - rewrite attrs_set_obj. reflexivity. }
  unfold _get. unfold bind at 1.
  rewrite (_get_frame_reads receiver "c" req_num [] rest wr Hr Hpipe Hn)
    by (simpl; first [lia | discriminate]).
  change (_get_value E receiver ["c"%byte] [])
    with (let! c := connection_dict_getitem (VInt 0) in ret (VConn c)).
  unfold bind, connection_dict_getitem. cbn [connection_dict set_obj]. rewrite Hpeer.
  reflexivity.
Qed.

Lemma integer_codec_round_trip_witness :
  (∃ b, _i2b 1000 0 = Ok b ∧ _b2i b = 1000)
  ∧ _i2b 0 0 = Ok []
  ∧ (∃ ws',
       _putconn 0 LocalConnection 9 (demo_world []) = (Ok tt, ws')
       ∧ outpipe (attrs ws' 0)
         = outpipe (attrs (demo_world []) 0) ++ frame_bytes "c" 9 [])
  ∧ _get demo_linux 0 (demo_world (frame_bytes "c" 9 [] ++ []))
    = (Ok (9, VConn LocalConnection),
       set_obj 0 (set_inpipe [] (attrs (demo_world (frame_bytes "c" 9 [] ++ [])) 0))
         (demo_world (frame_bytes "c" 9 [] ++ []))).
Proof.
  apply (integer_codec_round_trip demo_linux 1000 0 0 (demo_world [])
           (demo_world (frame_bytes "c" 9 [] ++ [])) LocalConnection LocalConnection 9 []).
  - lia.
  - reflexivity.
  - lia.
  - repeat split; reflexivity.
  - repeat split; reflexivity.
  - reflexivity.
  - reflexivity.
Defined.

(** ** The name resolver *)


Lemma getattr_chain_raises E func funclist e :
  getattr_chain E func funclist = Raise e → exc_type e = AttributeError.
Proof.
  revert func. induction funclist as [|elem rest IH]; intros func; simpl.
  - discriminate.
  - destruct (py_getattr E func elem); [apply IH|].
    intros [= <-]. reflexivity.
Qed.

Lemma getattr_chain_total E func funclist : getattr_chain E func funclist ≠ OutOfFuel.
Proof.
  revert func. induction funclist as [|elem rest IH]; intros func; simpl.
  - discriminate.
  - destruct (py_getattr E func elem); [apply IH | discriminate].
Qed.

(** C5, as the code has it.  For a dotted name with first segment
    [firstelem] and remaining segments [funclist]: if [firstelem] names
    a built-in, [_eval] returns that built-in itself, whatever the
    remaining segments are; otherwise it looks [firstelem] up in the
    registry and walks the remaining segments by attribute, returning
    what the walk ends on; and if the lookup or a step of the walk
    fails, it raises [NameError] with the message
    "name '<full dotted string>' is not defined".  The store is never
    changed. *)
Theorem name_resolution (E : Env) (funcstring firstelem : string)
    (funclist : list string) (w : World) :
  str_split "." funcstring = firstelem :: funclist →
  (∀ b, builtins E !! firstelem = Some b → _eval E funcstring w = (Ok b, w))
  ∧ (∀ func v,
       builtins E !! firstelem = None →
       globals w !! firstelem = Some func →
       getattr_chain E func funclist = Ok v →
       _eval E funcstring w = (Ok v, w))
  ∧ (builtins E !! firstelem = None →
     (globals w !! firstelem = None
      ∨ ∃ func e, globals w !! firstelem = Some func
                  ∧ getattr_chain E func funclist = Raise e) →
     _eval E funcstring w
     = (Raise (mk_exn NameError ("name '" +:+ funcstring +:+ "' is not defined")), w)).
Proof.
  intros Hsplit.
  unfold _eval, list_pop0, try_except, bind, ret, raise, lift, globals_getitem.
  rewrite Hsplit.
  split; [|split].
  - intros b ->. reflexivity.
  - intros func v -> Hg Hwalk. rewrite Hg, Hwalk. reflexivity.
  - intros -> Hfail.
    destruct Hfail as [-> | (func & e & -> & Hwalk)].
    + reflexivity.
    + rewrite Hwalk. unfold isinstance.
      rewrite (getattr_chain_raises _ _ _ _ Hwalk). reflexivity.
Qed.

Lemma name_resolution_witness :
  (∀ b, builtins demo_linux !! "os" = Some b →
        _eval demo_linux "os.getuid" (demo_world []) = (Ok b, demo_world []))
  ∧ (∀ func v,
       builtins demo_linux !! "os" = None →
       globals (demo_world []) !! "os" = Some func →
       getattr_chain demo_linux func ["getuid"] = Ok v →
       _eval demo_linux "os.getuid" (demo_world []) = (Ok v, demo_world []))
  ∧ (builtins demo_linux !! "os" = None →
     (globals (demo_world []) !! "os" = None
      ∨ ∃ func e, globals (demo_world []) !! "os" = Some func
                  ∧ getattr_chain demo_linux func ["getuid"] = Raise e) →
     _eval demo_linux "os.getuid" (demo_world [])
     = (Raise (mk_exn NameError ("name '" +:+ "os.getuid" +:+ "' is not defined")),
        demo_world [])).
Proof.
  apply (name_resolution demo_linux "os.getuid" "os" ["getuid"] (demo_world [])).
  reflexivity.
Defined.

(** C5 as stated fails on the remaining segments after a built-in: the
    built-in [len] has no attribute [nothing], so a walk by attribute
    fails, yet [_eval] returns [len] for the name "len.nothing" and
    raises no [NameError]. *)
Lemma builtin_returned_without_walk :
  str_split "." "len.nothing" = ["len"; "nothing"]
  ∧ builtins demo_linux !! "len" = Some (VObject "len")
  ∧ getattr_chain demo_linux (VObject "len") ["nothing"]
    = Raise (mk_exn AttributeError "nothing")
  ∧ fst (_eval demo_linux "len.nothing" (demo_world [])) = Ok (VObject "len").
Proof.
  repeat split; vm_compute; reflexivity.
Qed.

(** ** Routed calls *)

Lemma apply_RedirectedRun E fuel args :
  apply_callable E (S fuel) VRedirectedRun args = RedirectedRun (reval E fuel) args.
Proof. reflexivity. Qed.

(** C8.  For a routed connection with target number [t] whose routing
    connection is [r], [reval] of a name and arguments is [r.reval] of
    "RedirectedRun", [t], the name and the arguments.  [RedirectedRun],
    called on the routing side with these arguments, looks [t] up in the
    registry [connection_dict] of that side: when the connection found
    there is the local connection of that side, the call is rejected with
    an exception and nothing happens; otherwise the call is forwarded to
    the connection found. *)
Theorem routed_call (E : Env) (fuel : nat) (t routing_number : Z) (r found : Conn)
    (name : string) (args : list value) (w : World) :
  connection_dict w !! t = Some found →
  reval E fuel (RedirectedConnection t routing_number r) name args
  = reval E fuel r "RedirectedRun" (VInt t :: VStr name :: args)
  ∧ (found = LocalConnection →
     ∃ e, apply_callable E (S fuel) VRedirectedRun (VInt t :: VStr name :: args) w
          = (Raise e, w))
  ∧ (found ≠ LocalConnection →
     apply_callable E (S fuel) VRedirectedRun (VInt t :: VStr name :: args) w
     = reval E fuel found name args w).
Proof.
  intros Hfound. split; [reflexivity|].
  rewrite apply_RedirectedRun.
  unfold RedirectedRun, bind, connection_dict_getitem. rewrite Hfound.
  split.
  - intros ->. rewrite bool_decide_eq_true_2 by reflexivity.
    eexists. reflexivity.
  - intros Hne. rewrite bool_decide_eq_false_2 by exact Hne. reflexivity.
Qed.

Lemma routed_call_witness :
  reval demo_linux 3 (RedirectedConnection 0 1 (PipeConnection 0)) "len" [VStr "ping"]
  = reval demo_linux 3 (PipeConnection 0) "RedirectedRun" [VInt 0; VStr "len"; VStr "ping"]
  ∧ (LocalConnection = LocalConnection →
     ∃ e, apply_callable demo_linux 4 VRedirectedRun [VInt 0; VStr "len"; VStr "ping"]
            (demo_world [])
          = (Raise e, demo_world []))
  ∧ (LocalConnection ≠ LocalConnection →
     apply_callable demo_linux 4 VRedirectedRun [VInt 0; VStr "len"; VStr "ping"]
       (demo_world [])
     = reval demo_linux 3 LocalConnection "len" [VStr "ping"] (demo_world [])).
Proof.
  apply (routed_call demo_linux 3 0 1 (PipeConnection 0) LocalConnection "len"
           [VStr "ping"] (demo_world [])).
  reflexivity.
Defined.

(** ** Errors of the operating system *)



(** ** Request numbers *)

Lemma bind_Ok_inv {A B} (m : M A) (k : A → M B) w b w' :
  bind m k w = (Ok b, w') → ∃ a w1, m w = (Ok a, w1) ∧ k a w1 = (Ok b, w').
Proof.
  unfold bind. destruct (m w) as [[a | e |] w1]; intros H; try discriminate.
  exists a, w1. split; [reflexivity | exact H].
Qed.

Lemma unused_set_obj self o w x :
  unused_request_numbers o = unused w self → unused (set_obj self o w) x = unused w x.
Proof.
  intros Ho. unfold unused. destruct (decide (self = x)) as [<- | Hne].
  - rewrite attrs_set_obj. exact Ho.
  - rewrite attrs_set_obj_ne by exact Hne. reflexivity.
Qed.

Lemma keeps_ret {A} x (a : A) : keeps_unused x (ret a).
Proof. intros w r w' [= _ <-]. reflexivity. Qed.

Lemma keeps_raise {A} x e : keeps_unused x (@raise A e).
Proof. intros w r w' [= _ <-]. reflexivity. Qed.

Lemma keeps_lift {A} x (o : outcome A) : keeps_unused x (lift o).
Proof. intros w r w' [= _ <-]. reflexivity. Qed.

Lemma keeps_bind {A B} x (m : M A) (k : A → M B) :
  keeps_unused x m → (∀ a, keeps_unused x (k a)) → keeps_unused x (bind m k).
Proof.
  intros Hm Hk w r w'. unfold bind.
  destruct (m w) as [[a | e |] w1] eqn:Hmw; intros H.
  - rewrite (Hk a _ _ _ H). eapply Hm; eassumption.
  - injection H as _ <-. eapply Hm; eassumption.
  - injection H as _ <-. eapply Hm; eassumption.
Qed.

Lemma keeps_try_except {A} x (m : M A) (h : exn → M A) :
  keeps_unused x m → (∀ e, keeps_unused x (h e)) → keeps_unused x (try_except m h).
Proof.
  intros Hm Hh w r w'. unfold try_except.
  destruct (m w) as [[a | e |] w1] eqn:Hmw; intros H.
  - injection H as _ <-. eapply Hm; eassumption.
  - rewrite (Hh e _ _ _ H). eapply Hm; eassumption.
  - injection H as _ <-. eapply Hm; eassumption.
Qed.

Lemma keeps_if {A} x (b : bool) (m1 m2 : M A) :
  keeps_unused x m1 → keeps_unused x m2 → keeps_unused x (if b then m1 else m2).
Proof. destruct b; auto. Qed.

Lemma keeps_outpipe_write x self bs : keeps_unused x (outpipe_write self bs).
Proof.
  intros w r w'. unfold outpipe_write.
  destruct (closed (attrs w self)); [intros [= _ <-]; reflexivity|].
  destruct (out_fault (attrs w self)); intros [= _ <-]; [reflexivity|].
  apply unused_set_obj. reflexivity.
Qed.

Lemma keeps_outpipe_flush x self : keeps_unused x (outpipe_flush self).
Proof.
  intros w r w'. unfold outpipe_flush.
  destruct (closed (attrs w self)); [intros [= _ <-]; reflexivity|].
  destruct (out_fault (attrs w self)); intros [= _ <-]; reflexivity.
Qed.

Lemma keeps_inpipe_read x self n : keeps_unused x (inpipe_read self n).
Proof.
  intros w r w'. unfold inpipe_read.
  destruct (closed (attrs w self)); [intros [= _ <-]; reflexivity|].
  destruct (in_fault (attrs w self)); [intros [= _ <-]; reflexivity|].
  destruct (n <? 0); intros [= _ <-]; apply unused_set_obj; reflexivity.
Qed.

Lemma keeps_get_conn_number x c : keeps_unused x (get_conn_number c).
Proof. intros w r w' [= _ <-]. reflexivity. Qed.

Lemma keeps_connection_dict_getitem x key : keeps_unused x (connection_dict_getitem key).
Proof.
  intros w r w'. unfold connection_dict_getitem.
  destruct key; try (intros [= _ <-]; reflexivity).
  destruct (connection_dict w !! z); intros [= _ <-]; reflexivity.
Qed.

Lemma keeps_globals_getitem x name : keeps_unused x (globals_getitem name).
Proof.
  intros w r w'. unfold globals_getitem.
  destruct (globals w !! name); intros [= _ <-]; reflexivity.
Qed.

Lemma keeps_VirtualFile_new x fileobj : keeps_unused x (VirtualFile_new fileobj).
Proof. intros w r w' [= _ <-]. reflexivity. Qed.

Lemma keeps__close x self : keeps_unused x (_close self).
Proof. intros w r w' [= _ <-]. apply unused_set_obj. reflexivity. Qed.

Create HintDb keeps.

#[local] Hint Resolve keeps_ret keeps_raise keeps_lift keeps_bind keeps_try_except
  keeps_if keeps_outpipe_write keeps_outpipe_flush keeps_inpipe_read
  keeps_get_conn_number keeps_connection_dict_getitem keeps_globals_getitem
  keeps_VirtualFile_new keeps__close : keeps.

Lemma keeps__write x self headerchar data req_num :
  keeps_unused x (_write self headerchar data req_num).
Proof. unfold _write. auto 10 with keeps. Qed.

#[local] Hint Resolve keeps__write : keeps.

Lemma keeps__put x E self obj req_num : keeps_unused x (_put E self obj req_num).
Proof.
  destruct obj; cbn [_put];
    unfold _putbuf, _putconn, _putqrpath, _putrpath, _putrorpath, _putfile, _putiter, _putobj;
    auto 10 with keeps.
Qed.

Lemma keeps__get_frame x self : keeps_unused x (_get_frame self).
Proof. unfold _get_frame, _read. auto 10 with keeps. Qed.

Lemma keeps__get_value x E self format_string data :
  keeps_unused x (_get_value E self format_string data).
Proof.
  unfold _get_value, _getrorpath, _getrpath, _getqrpath.
  repeat (apply keeps_if; [auto 10 with keeps|]); auto with keeps.
  all: apply keeps_bind; [auto with keeps|]; intros t;
    repeat (match goal with |- keeps_unused _ (match ?v with _ => _ end) => destruct v end);
    auto 10 with keeps.
Qed.

#[local] Hint Resolve keeps__put keeps__get_frame keeps__get_value : keeps.

Lemma keeps__get x E self : keeps_unused x (_get E self).
Proof.
  unfold _get. apply keeps_bind; [auto with keeps|].
  intros [[format_string req_num] data]. auto 10 with keeps.
Qed.

Lemma keeps__eval x E funcstring : keeps_unused x (_eval E funcstring).
Proof.
  unfold _eval. apply keeps_bind.
  - unfold list_pop0. destruct (str_split "." funcstring); auto with keeps.
  - intros [firstelem funclist]. destruct (builtins E !! firstelem); auto 10 with keeps.
Qed.

Lemma keeps__extract_exception x E result : keeps_unused x (_extract_exception E result).
Proof. unfold _extract_exception. auto with keeps. Qed.

#[local] Hint Resolve keeps__get keeps__eval keeps__extract_exception : keeps.

Section RequestNumbers.

Variable E : Env.
Variable apply : value → list value → M value.
Variable self : nat.

(** The callables that run while requests are answered leave the unused
    request numbers of this connection as they found them. *)
Hypothesis apply_keeps : ∀ func args, keeps_unused self (apply func args).

Lemma keeps_read_arguments req_num n :
  keeps_unused self (read_arguments E self req_num n).
Proof.
  induction n as [|n IH]; cbn [read_arguments]; [auto with keeps|].
  apply keeps_bind; [auto with keeps|].
  intros [arg_req_num arg]. auto 10 with keeps.
Qed.

Lemma keeps_evaluate_request function_string num_args argument_list :
  keeps_unused self (evaluate_request E apply function_string num_args argument_list).
Proof.
  unfold evaluate_request. apply keeps_try_except; [|auto with keeps].
  destruct (vet_request E function_string num_args argument_list); auto with keeps.
Qed.

Lemma keeps_put_arguments args req_num :
  keeps_unused self (put_arguments E self args req_num).
Proof.
  induction args as [|arg rest IH]; cbn [put_arguments]; auto with keeps.
Qed.

Lemma unused_add_spec req_num w :
  unused_add self req_num w
  = (Ok tt, snd (unused_add self req_num w))
  ∧ unused (snd (unused_add self req_num w)) self = {[req_num]} ∪ unused w self
  ∧ closed (attrs (snd (unused_add self req_num w)) self) = closed (attrs w self).
Proof.
  unfold unused_add. cbn [snd]. split; [reflexivity|].
  unfold unused at 1. rewrite attrs_set_obj. split; reflexivity.
Qed.

Lemma unused_remove_Ok req_num w w' :
  unused_remove self req_num w = (Ok tt, w') →
  req_num ∈ unused w self ∧ unused w' self = unused w self ∖ {[req_num]}.
Proof.
  unfold unused_remove. case_bool_decide as Hin; [|discriminate].
  intros [= <-]. split; [exact Hin|].
  unfold unused at 1. rewrite attrs_set_obj. reflexivity.
Qed.

Lemma _get_new_req_num_Ok req_num w w' :
  set_pop_valid E →
  _get_new_req_num E self w = (Ok req_num, w') →
  req_num ∈ unused w self ∧ unused w' self = unused w self ∖ {[req_num]}.
Proof.
  intros Hpop. unfold _get_new_req_num. case_bool_decide as Hempty; [discriminate|].
  intros [= <- <-]. split; [apply Hpop; exact Hempty|].
  unfold unused at 1. rewrite attrs_set_obj. reflexivity.
Qed.

Lemma add_back (s : gset Z) (x : Z) : x ∈ s → {[x]} ∪ s ∖ {[x]} = s.
Proof.
  intros Hx. apply set_eq. intros y.
  rewrite elem_of_union, elem_of_singleton, elem_of_difference, elem_of_singleton.
  destruct (decide (y = x)) as [-> | Hne]; tauto.
Qed.

(** An answered request leaves the set as it was: its number is taken
    out at the start and put back at the end. *)
Lemma _answer_request_unused function_string num_args req_num w w' :
  _answer_request E apply self function_string num_args req_num w = (Ok tt, w') →
  unused w' self = unused w self.
Proof.
  unfold _answer_request. intros H.
  apply bind_Ok_inv in H as ([] & w1 & Hrem & H).
  apply bind_Ok_inv in H as (argument_list & w2 & Hargs & H).
  apply bind_Ok_inv in H as (result & w3 & Heval & H).
  apply bind_Ok_inv in H as ([] & w4 & Hput & H).
  apply unused_remove_Ok in Hrem as [Hin Hw1].
  apply keeps_read_arguments in Hargs.
  apply keeps_evaluate_request in Heval.
  apply (keeps__put self) in Hput.
  destruct (unused_add_spec req_num w4) as (Hadd & Hset & _).
  rewrite Hadd in H. injection H as <-.
  change (unused (snd (unused_add self req_num w4)) self = unused w self).
  rewrite Hset, Hput, Heval, Hargs, Hw1. apply add_back. exact Hin.
Qed.

(** When [_get_response] returns, either it has left the set as it was,
    or it returns [None] after a quit signal, with the pipes closed. *)
Lemma _get_response_unused fuel desired_req_num w v w' :
  _get_response E apply fuel self desired_req_num w = (Ok v, w') →
  unused w' self = unused w self
  ∨ (v = VNone ∧ closed (attrs w' self) = true).
Proof.
  revert w. induction fuel as [|fuel IH]; intros w; cbn [_get_response]; [discriminate|].
  intros H. apply bind_Ok_inv in H as (got & w1 & Hgot & H).
  assert (Hw1 : unused w1 self = unused w self).
  { revert Hgot. apply keeps_try_except; [auto 10 with keeps|].
    intros e. auto with keeps. }
  destruct got as [[req_num object]|].
  - destruct (req_num =? desired_req_num).
    + injection H as <- <-. left. exact Hw1.
    + destruct object; try discriminate H.
      apply bind_Ok_inv in H as ([] & w2 & Hans & H).
      apply _answer_request_unused in Hans.
      destruct (IH _ H) as [Hsame | Hquit]; [left | right; exact Hquit].
      rewrite Hsame, Hans. exact Hw1.
  - right.
    apply bind_Ok_inv in H as (n & w2 & _ & H).
    apply bind_Ok_inv in H as ([] & w3 & _ & H).
    apply bind_Ok_inv in H as ([] & w4 & Hclose & H).
    injection H as <- <-. injection Hclose as <-.
    rewrite attrs_set_obj. split; reflexivity.
Qed.


Lemma PipeConnection_reval_Ok_inv fuel function_string args w v w' :
  PipeConnection_reval E apply fuel self function_string args w = (Ok v, w') →
  ∃ req_num w1 w2 result w3,
    _get_new_req_num E self w = (Ok req_num, w1)
    ∧ (let! _ := _put E self (VRequest function_string (Z.of_nat (length args))) req_num in
       put_arguments E self args req_num) w1 = (Ok tt, w2)
    ∧ _get_response E apply fuel self req_num w2 = (Ok result, w3)
    ∧ w' = snd (unused_add self req_num w3)
    ∧ reval_result E result = Ok v.
Proof.
  unfold PipeConnection_reval. intros H.
  apply bind_Ok_inv in H as (req_num & w1 & Hnum & H).
  apply bind_Ok_inv in H as ([] & w1' & Hput1 & H).
  apply bind_Ok_inv in H as ([] & w2 & Hput2 & H).
  apply bind_Ok_inv in H as (result & w3 & Hresp & H).
  apply bind_Ok_inv in H as ([] & w4 & Hadd & H).
  exists req_num, w1, w2, result, w3.
  split; [exact Hnum|]. split; [unfold bind; rewrite Hput1; exact Hput2|].
  split; [exact Hresp|].
  destruct (unused_add_spec req_num w3) as (Hadd' & _).
  rewrite Hadd' in Hadd. injection Hadd as <-.
  injection H as H <-. split; [reflexivity | exact H].
Qed.

Lemma reval_steps_unused function_string args req_num w w1 w2 :
  set_pop_valid E →
  _get_new_req_num E self w = (Ok req_num, w1) →
  (let! _ := _put E self (VRequest function_string (Z.of_nat (length args))) req_num in
   put_arguments E self args req_num) w1 = (Ok tt, w2) →
  req_num ∈ unused w self ∧ unused w2 self = unused w self ∖ {[req_num]}.
Proof.
  intros Hpop Hnum Hput.
  apply (_get_new_req_num_Ok _ _ _ Hpop) in Hnum as [Hin Hw1].
  split; [exact Hin|]. rewrite <- Hw1.
  revert Hput. apply keeps_bind; [auto with keeps|].
  intros _. apply keeps_put_arguments.
Qed.

(** C2, as the code has it.  For every pipe connection: after a call of
    [reval] that returned and left the connection open, that is, one
    that ended on the response with its own request number and not on a
    quit signal, the set of unused request numbers is what it was before
    the call.  The callables that ran while requests were answered during
    the wait are taken to leave the set alone. *)
Theorem reval_conserves_request_numbers (fuel : nat) (function_string : string)
    (args : list value) (w w' : World) (v : value) :
  set_pop_valid E →
  PipeConnection_reval E apply fuel self function_string args w = (Ok v, w') →
  closed (attrs w' self) = false →
  unused w' self = unused w self.
Proof.
  intros Hpop Hrun Hopen.
  apply PipeConnection_reval_Ok_inv in Hrun
    as (req_num & w1 & w2 & result & w3 & Hnum & Hput & Hresp & -> & _).
  destruct (reval_steps_unused _ _ _ _ _ _ Hpop Hnum Hput) as [Hin Hw2].
  destruct (unused_add_spec req_num w3) as (_ & Hset & Hclosed).
  rewrite Hclosed in Hopen.
  apply _get_response_unused in Hresp as [Hsame | [_ Hquit]]; [|congruence].
  rewrite Hset, Hsame, Hw2. apply add_back. exact Hin.
Qed.


End RequestNumbers.

Lemma demo_set_pop_valid eagain : set_pop_valid (demo_env eagain).
Proof.
  intros s Hs. cbn [set_pop demo_env]. unfold demo_set_pop.
  destruct (elements s) as [|x l] eqn:Hel.
  - apply elements_empty_inv in Hel. apply leibniz_equiv in Hel. contradiction.
  - cbn. apply elem_of_elements. rewrite Hel. apply list_elem_of_here.
Qed.

Lemma demo_call_keeps self func args : keeps_unused self (demo_call func args).
Proof.
  unfold demo_call.
  repeat (match goal with |- keeps_unused _ (match ?v with _ => _ end) => destruct v end);
    auto with keeps.
Qed.

Lemma reval_conserves_request_numbers_witness :
  let w := demo_world demo_reentrant_input in
  let run := PipeConnection_reval demo_linux demo_call 5 0 "pow" [VInt 2; VInt 8] w in
  unused (snd run) 0 = unused w 0.
Proof.
  intros w run.
  apply (reval_conserves_request_numbers demo_linux demo_call 0 (demo_call_keeps 0)
           5 "pow" [VInt 2; VInt 8] w (snd run) (VBytes ["o"; "k"]%byte)).
  - apply demo_set_pop_valid.
  - vm_compute. reflexivity.
  - vm_compute. reflexivity.
Defined.

(** C2 as stated fails when the wait of [reval] ends on a quit signal:
    [reval] returns [None], so the call completes, but the number that
    [_get_response] took for the "quitting" acknowledgement is never put
    back, and the set of unused request numbers has lost it. *)
Lemma reval_after_quit_loses_a_request_number :
  let w := demo_world (frame_bytes "q" 255 []) in
  let run := PipeConnection_reval demo_linux demo_call 5 0 "len" [VStr "hello"] w in
  fst run = Ok VNone
  ∧ unused (snd run) 0 ≠ unused w 0.
Proof.
  intros w run. split; [vm_compute; reflexivity|].
  intros Heq.
  assert (Hdec : bool_decide (unused (snd run) 0 = unused w 0) = false)
    by (vm_compute; reflexivity).
  apply bool_decide_eq_false in Hdec. contradiction.
Qed.


(** ** Arguments of a request *)

Lemma decodes_same_dict E self w w0 frame v :
  connection_dict w0 = connection_dict w → decodes E self w frame v → decodes E self w0 frame v.
Proof.
  intros Hd (Hq & Hlen & Hval). repeat split; [exact Hq | exact Hlen |].
  intros w' Hw'. apply Hval. congruence.
Qed.

Lemma healthy_set_inpipe self bs w :
  healthy w self → healthy (set_obj self (set_inpipe bs (attrs w self)) w) self.
Proof. intros Hh. unfold healthy. rewrite attrs_set_obj. exact Hh. Qed.

Lemma healthy_set_unused self s w :
  healthy w self → healthy (set_obj self (set_unused s (attrs w self)) w) self.
Proof. intros Hh. unfold healthy. rewrite attrs_set_obj. exact Hh. Qed.

(** One frame that decodes, read by [_get]. *)
Lemma _get_reads E self frame v req_num rest w :
  healthy w self →
  0 ≤ req_num ≤ 255 →
  decodes E self w frame v →
  inpipe (attrs w self) = frame_bytes (fst frame) req_num (snd frame) ++ rest →
  _get E self w = (Ok (req_num, v), set_obj self (set_inpipe rest (attrs w self)) w).
Proof.
  intros Hh Hn (Hq & Hlen & Hval) Hpipe.
  unfold _get. unfold bind at 1.
  rewrite (_get_frame_reads self (fst frame) req_num (snd frame) rest w Hh Hpipe Hn Hlen Hq).
  unfold bind. rewrite Hval by reflexivity. reflexivity.
Qed.

Lemma set_obj_same self w :
  is_Some (objects w !! self) → set_obj self (attrs w self) w = w.
Proof.
  intros [o Ho]. unfold attrs. rewrite (lookup_total_correct _ _ _ Ho).
  unfold set_obj. rewrite (insert_id _ _ _ Ho). destruct w; reflexivity.
Qed.

Lemma set_inpipe_same o : set_inpipe (inpipe o) o = o.
Proof. destruct o; reflexivity. Qed.

Lemma allocated_set_obj self o w : is_Some (objects (set_obj self o w) !! self).
Proof. unfold set_obj; cbn. rewrite lookup_insert_eq. eauto. Qed.

Section Arguments.

Variable E : Env.
Variable self : nat.
Variable req_num : Z.
Hypothesis req_num_byte : 0 ≤ req_num ≤ 255.

(** As many frames as arguments, all with the number of the request:
    the loop reads them all and nothing after them. *)
Lemma read_arguments_reads frames :
  ∀ values w rest,
    is_Some (objects w !! self) →
    healthy w self →
    Forall2 (decodes E self w) frames values →
    inpipe (attrs w self) = frames_bytes req_num frames ++ rest →
    read_arguments E self req_num (length frames) w
    = (Ok values, set_obj self (set_inpipe rest (attrs w self)) w).
Proof.
  induction frames as [|frame frames IH]; intros values w rest Hex Hh Hdec Hpipe.
  - apply Forall2_nil_inv_l in Hdec as ->. cbn in Hpipe |- *.
    unfold ret. rewrite <- Hpipe, set_inpipe_same, set_obj_same by exact Hex.
    reflexivity.
  - apply Forall2_cons_inv_l in Hdec as (v & values' & Hv & Hrest & ->).
    cbn [frames_bytes flat_map] in Hpipe. rewrite <- app_assoc in Hpipe.
    cbn [length read_arguments]. unfold bind at 1.
    rewrite (_get_reads E self frame v req_num _ w Hh req_num_byte Hv Hpipe).
    rewrite Z.eqb_refl. unfold bind.
    set (w1 := set_obj self _ w).
    rewrite (IH values' w1 rest).
    + unfold w1. rewrite attrs_set_obj, set_obj_twice. reflexivity.
    + apply allocated_set_obj.
    + apply healthy_set_inpipe. exact Hh.
    + eapply Forall2_impl; [exact Hrest|].
      intros fr x. apply decodes_same_dict. reflexivity.
    + unfold w1. rewrite attrs_set_obj. reflexivity.
Qed.

(** Fewer matching frames than arguments, then a frame with another
    number: the loop stops at that frame with an exception. *)
Lemma read_arguments_mismatch frames :
  ∀ values n w bad v other rest,
    healthy w self →
    Forall2 (decodes E self w) frames values →
    (length frames < n)%nat →
    other ≠ req_num →
    0 ≤ other ≤ 255 →
    decodes E self w bad v →
    inpipe (attrs w self)
    = frames_bytes req_num frames ++ frame_bytes (fst bad) other (snd bad) ++ rest →
    read_arguments E self req_num n w
    = (Raise (mk_exn AttributeError "'str' object has no attribute 'object'"),
       set_obj self (set_inpipe rest (attrs w self)) w).
Proof.
  induction frames as [|frame frames IH];
    intros values n w bad v other rest Hh Hdec Hn Hother Hbyte Hbad Hpipe.
  - destruct n as [|n]; [cbn in Hn; lia|].
    cbn in Hpipe. cbn [read_arguments]. unfold bind at 1.
    rewrite (_get_reads E self bad v other rest w Hh Hbyte Hbad Hpipe).
    destruct (Z.eqb_spec other req_num); [contradiction|]. reflexivity.
  - apply Forall2_cons_inv_l in Hdec as (x & values' & Hx & Hrest & ->).
    destruct n as [|n]; [cbn in Hn; lia|].
    cbn [frames_bytes flat_map] in Hpipe. rewrite <- app_assoc in Hpipe.
    cbn [read_arguments]. unfold bind at 1.
    rewrite (_get_reads E self frame x req_num _ w Hh req_num_byte Hx Hpipe).
    rewrite Z.eqb_refl. unfold bind.
    set (w1 := set_obj self _ w).
    rewrite (IH values' n w1 bad v other rest).
    + unfold w1. rewrite attrs_set_obj, set_obj_twice. reflexivity.
    + apply healthy_set_inpipe. exact Hh.
    + eapply Forall2_impl; [exact Hrest|].
      intros fr y. apply decodes_same_dict. reflexivity.
    + cbn [length] in Hn. lia.
    + exact Hother.
    + exact Hbyte.
    + eapply decodes_same_dict; [|exact Hbad]. reflexivity.
    + unfold w1. rewrite attrs_set_obj. reflexivity.
Qed.

End Arguments.

(** C7.  For every request record with [num_args] arguments that arrives
    under request number [req_num]: when the next [num_args] frames of
    the pipe carry that number, [_answer_request] reads exactly these
    frames (what follows them is still in the pipe when the call is
    evaluated) and evaluates the request on the values they stand for,
    in order; and when, before [num_args] frames were read, a frame
    arrives with another request number, [_answer_request] raises at
    that frame: the request is not evaluated and no response is written. *)
Theorem answer_request_checks_arguments (E : Env) (apply : value → list value → M value)
    (self : nat) (function_string : string) (num_args req_num : Z)
    (frames : list (byte * list byte)) (values : list value) (rest : list byte)
    (w : World) :
  req_num ∈ unused w self →
  0 ≤ req_num ≤ 255 →
  healthy w self →
  Forall2 (decodes E self w) frames values →
  (length frames = Z.to_nat num_args →
   inpipe (attrs w self) = frames_bytes req_num frames ++ rest →
   _answer_request E apply self function_string num_args req_num w
   = (let! result := evaluate_request E apply function_string num_args values in
      let! _ := _put E self result req_num in
      unused_add self req_num)
       (set_obj self
          (set_inpipe rest (set_unused (unused w self ∖ {[req_num]}) (attrs w self))) w))
  ∧ (∀ bad v other,
       (length frames < Z.to_nat num_args)%nat →
       other ≠ req_num →
       0 ≤ other ≤ 255 →
       decodes E self w bad v →
       inpipe (attrs w self)
       = frames_bytes req_num frames ++ frame_bytes (fst bad) other (snd bad) ++ rest →
       ∃ e w',
         _answer_request E apply self function_string num_args req_num w = (Raise e, w')
         ∧ exc_type e = AttributeError
         ∧ outpipe (attrs w' self) = outpipe (attrs w self)
         ∧ inpipe (attrs w' self) = rest).
Proof.
  intros Hin Hbyte Hh Hdec.
  set (w1 := set_obj self (set_unused (unused w self ∖ {[req_num]}) (attrs w self)) w).
  assert (Hrem : unused_remove self req_num w = (Ok tt, w1)).
  { unfold unused_remove. rewrite bool_decide_eq_true_2 by exact Hin. reflexivity. }
  assert (Hh1 : healthy w1 self) by (apply healthy_set_unused; exact Hh).
  assert (Hdec1 : Forall2 (decodes E self w1) frames values).
  { eapply Forall2_impl; [exact Hdec|]. intros fr x. apply decodes_same_dict. reflexivity. }
  assert (Hattrs : attrs w1 self = set_unused (unused w self ∖ {[req_num]}) (attrs w self))
    by apply attrs_set_obj.
  split.
  - intros Hlen Hpipe.
    unfold _answer_request. unfold bind at 1. rewrite Hrem.
    unfold bind at 1. rewrite <- Hlen.
    rewrite (read_arguments_reads E self req_num Hbyte frames values w1 rest).
    + unfold w1 at 2. rewrite Hattrs, set_obj_twice. reflexivity.
    + apply allocated_set_obj.
    + exact Hh1.
    + exact Hdec1.
    + rewrite Hattrs. exact Hpipe.
  - intros bad v other Hlen Hother Hobyte Hbad Hpipe.
    eexists _, _. split.
    + unfold _answer_request. unfold bind at 1. rewrite Hrem.
      unfold bind at 1.
      rewrite (read_arguments_mismatch E self req_num Hbyte frames values
                 (Z.to_nat num_args) w1 bad v other rest Hh1 Hdec1 Hlen Hother Hobyte).
      * reflexivity.
      * eapply decodes_same_dict; [|exact Hbad]. reflexivity.
      * rewrite Hattrs. exact Hpipe.
    + split; [reflexivity|]. rewrite attrs_set_obj, Hattrs. split; reflexivity.
Qed.

Lemma answer_request_checks_arguments_witness :
  let frames := [("o"%byte, demo_dumps (VStr "hello"))] in
  let w := demo_world (frames_bytes 7 frames ++ []) in
  (length frames = Z.to_nat 1 →
   inpipe (attrs w 0) = frames_bytes 7 frames ++ [] →
   _answer_request demo_linux demo_call 0 "len" 1 7 w
   = (let! result := evaluate_request demo_linux demo_call "len" 1 [VStr "hello"] in
      let! _ := _put demo_linux 0 result 7 in
      unused_add 0 7)
       (set_obj 0 (set_inpipe [] (set_unused (unused w 0 ∖ {[7]}) (attrs w 0))) w))
  ∧ (∀ bad v other,
       (length frames < Z.to_nat 1)%nat →
       other ≠ 7 →
       0 ≤ other ≤ 255 →
       decodes demo_linux 0 w bad v →
       inpipe (attrs w 0)
       = frames_bytes 7 frames ++ frame_bytes (fst bad) other (snd bad) ++ [] →
       ∃ e w',
         _answer_request demo_linux demo_call 0 "len" 1 7 w = (Raise e, w')
         ∧ exc_type e = AttributeError
         ∧ outpipe (attrs w' 0) = outpipe (attrs w 0)
         ∧ inpipe (attrs w' 0) = []).
Proof.
  intros frames w.
  apply (answer_request_checks_arguments demo_linux demo_call 0 "len" 1 7 frames
           [VStr "hello"] [] w).
  - apply (bool_decide_unpack (7 ∈ unused w 0)). vm_compute. exact I.
  - lia.
  - repeat split; reflexivity.
  - constructor; [|constructor].
    split; [discriminate|]. split; [simpl; lia|]. intros w' _. reflexivity.
Defined.

(** An argument frame with another request number, on a concrete pipe:
    the request for [len] under number 7 is followed by an argument under
    number 8; [_answer_request] raises and writes nothing. *)
Example answer_request_rejects_mismatch :
  let w := demo_world (frame_bytes "o" 8 (demo_dumps (VStr "hello"))) in
  let run := _answer_request demo_linux demo_call 0 "len" 1 7 w in
  fst run = Raise (mk_exn AttributeError "'str' object has no attribute 'object'")
  ∧ outpipe (attrs (snd run) 0) = [].
Proof. split; vm_compute; reflexivity. Qed.

(** ** More on integers on the wire *)

Lemma from_bytes_range b : 0 ≤ from_bytes b < 256 ^ Z.of_nat (length b).
Proof.
  induction b as [|x b IH] using rev_ind.
  - cbn. lia.
  - rewrite from_bytes_snoc, length_app. cbn [length].
    replace (Z.of_nat (length b + 1)) with (Z.succ (Z.of_nat (length b))) by lia.
    rewrite Z.pow_succ_r by lia.
    pose proof (byte_to_Z_range x). nia.
Qed.

Lemma be_digits_from_bytes b : be_digits (length b) (from_bytes b) = b.
Proof.
  induction b as [|x b IH] using rev_ind; [reflexivity|].
  rewrite from_bytes_snoc, length_app. cbn [length].
  replace (length b + 1)%nat with (S (length b)) by lia.
  cbn [be_digits]. pose proof (byte_to_Z_range x) as Hx.
  replace ((from_bytes b * 256 + byte_to_Z x) / 256) with (from_bytes b)
    by (apply Z.div_unique_pos with (r := byte_to_Z x); lia).
  replace ((from_bytes b * 256 + byte_to_Z x) mod 256) with (byte_to_Z x)
    by (apply Z.mod_unique_pos with (q := from_bytes b); lia).
  rewrite IH, byte_of_to_Z. reflexivity.
Qed.

Lemma be_digits_head n i :
  be_digits (S n) i
  = byte_of_Z ((i / 256 ^ Z.of_nat n) mod 256) :: be_digits n i.
Proof.
  revert i. induction n as [|n IH]; intros i.
  - cbn. rewrite Z.div_1_r. reflexivity.
  - change (be_digits (S (S n)) i)
      with (be_digits (S n) (i / 256) ++ [byte_of_Z (i mod 256)]).
    rewrite IH. cbn [be_digits app].
    rewrite Nat2Z.inj_succ, Z.pow_succ_r by lia.
    rewrite Z.div_div by lia. reflexivity.
Qed.

(** X1.  With an explicit positive [size], [_i2b] succeeds exactly on the
    integers from 0 up to 256^size - 1 and raises [OverflowError] on all
    others; the byte string it returns has [size] bytes and [_b2i]
    reads the integer back from it. *)
Theorem _i2b_sized_codec (i size : Z) :
  0 < size →
  (0 ≤ i < 256 ^ size →
   ∃ b, _i2b i size = Ok b ∧ Z.of_nat (length b) = size ∧ _b2i b = i)
  ∧ (¬ 0 ≤ i < 256 ^ size →
     ∃ e, _i2b i size = Raise e ∧ exc_type e = OverflowError).
Proof.
  intros Hs. split.
  - intros Hi. eexists. split; [apply _i2b_sized; assumption|].
    rewrite be_digits_length. split; [lia|].
    unfold _b2i. apply from_bytes_be_digits_small. rewrite Z2Nat.id by lia. exact Hi.
  - intros Hi. destruct (_i2b_cases i size Hs) as [[Hin _] | [_ He]]; [contradiction | exact He].
Qed.

Lemma _i2b_sized_codec_witness :
  (0 ≤ 258 < 256 ^ 7 →
   ∃ b, _i2b 258 7 = Ok b ∧ Z.of_nat (length b) = 7 ∧ _b2i b = 258)
  ∧ (¬ 0 ≤ 258 < 256 ^ 7 →
     ∃ e, _i2b 258 7 = Raise e ∧ exc_type e = OverflowError).
Proof. apply (_i2b_sized_codec 258 7). lia. Defined.

(** X2.  For every non-empty byte string [b], [_i2b] at the length of [b]
    gives [b] back from the integer that [_b2i] reads from it. *)
Theorem _b2i_then_i2b (b : list byte) :
  b ≠ [] → _i2b (_b2i b) (Z.of_nat (length b)) = Ok b.
Proof.
  intros Hb. unfold _b2i.
  rewrite _i2b_sized.
  - rewrite Nat2Z.id, be_digits_from_bytes. reflexivity.
  - destruct b; [contradiction | cbn [length]; lia].
  - apply from_bytes_range.
Qed.

Lemma _b2i_then_i2b_witness :
  _i2b (_b2i ["000"; "001"; "002"]%byte) (Z.of_nat (length ["000"; "001"; "002"]%byte))
  = Ok ["000"; "001"; "002"]%byte.
Proof. apply (_b2i_then_i2b ["000"; "001"; "002"]%byte). discriminate. Defined.

(** X3.  Without a size, [_i2b] gives a positive integer the shortest
    byte string that holds it: the string is not empty and its first
    byte is not zero. *)
Theorem _i2b_minimal_length (i : Z) :
  0 < i →
  ∃ first rest, _i2b i 0 = Ok (first :: rest) ∧ first ≠ "000"%byte.
Proof.
  intros Hi.
  rewrite _i2b_minimal by lia.
  assert (Hbl : bit_length i = Z.log2 i + 1).
  { unfold bit_length. destruct (Z.eqb_spec i 0); [lia|]. rewrite Z.abs_eq by lia.
    reflexivity. }
  pose proof (Z.log2_nonneg i) as Hl.
  pose proof (Z.log2_spec i Hi) as [Hlow _].
  set (k := (bit_length i + 7) / 8).
  assert (Hk : 8 * (k - 1) ≤ Z.log2 i ∧ 1 ≤ k).
  { unfold k. rewrite Hbl.
    pose proof (Z.div_mod (Z.log2 i + 1 + 7) 8 ltac:(lia)).
    pose proof (Z.mod_pos_bound (Z.log2 i + 1 + 7) 8 ltac:(lia)). lia. }
  destruct Hk as [Hk1 Hk2].
  destruct (Z.to_nat k) as [|n] eqn:Hn; [lia|].
  rewrite be_digits_head. eexists _, _. split; [reflexivity|].
  assert (Hn' : Z.of_nat n = k - 1) by lia.
  assert (Hpow : 256 ^ Z.of_nat n ≤ i).
  { rewrite Hn'. change 256 with (2 ^ 8). rewrite <- Z.pow_mul_r by lia.
    eapply Z.le_trans; [|exact Hlow]. apply Z.pow_le_mono_r; lia. }
  assert (Hupper : i < 256 ^ Z.of_nat n * 256).
  { destruct (bit_length_bytes i ltac:(lia)) as [_ Hlt]. fold k in Hlt.
    replace k with (Z.succ (Z.of_nat n)) in Hlt by lia.
    rewrite Z.pow_succ_r in Hlt by lia. lia. }
  assert (Hpos : 0 < 256 ^ Z.of_nat n) by (apply Z.pow_pos_nonneg; lia).
  assert (Hq : 1 ≤ i / 256 ^ Z.of_nat n < 256).
  { split.
    - apply Z.div_le_lower_bound; lia.
    - apply Z.div_lt_upper_bound; lia. }
  rewrite Z.mod_small by lia.
  intros Hzero.
  apply (f_equal byte_to_Z) in Hzero. rewrite byte_to_of_Z in Hzero by lia.
  change (byte_to_Z "000") with 0 in Hzero. lia.
Qed.

Lemma _i2b_minimal_length_witness :
  ∃ first rest, _i2b 65536 0 = Ok (first :: rest) ∧ first ≠ "000"%byte.
Proof. apply (_i2b_minimal_length 65536). lia. Defined.

(** ** Reading frames that are short, malformed or dangling *)


(** X4.  When fewer than nine bytes are left in the pipe, [_get] raises
    [ConnectionReadError] for the truncated header, and the bytes that
    were there have been read. *)
Theorem _get_truncated_header (E : Env) (self : nat) (w : World) :
  healthy w self →
  (length (inpipe (attrs w self)) < 9)%nat →
  ∃ e,
    _get E self w = (Raise e, set_obj self (set_inpipe [] (attrs w self)) w)
    ∧ exc_type e = ConnectionReadError.
Proof.
  intros (Hclosed & Hin & _) Hshort.
  unfold _get, _get_frame, bind.
  unfold inpipe_read at 1. rewrite Hclosed, Hin.
  change (9 <? 0) with false. cbv iota.
  change (Z.to_nat 9) with 9%nat.
  rewrite (take_ge (inpipe (attrs w self)) 9), (drop_ge (inpipe (attrs w self)) 9) by lia.
  destruct (Nat.eqb_spec (length (inpipe (attrs w self))) 9) as [Heq|_]; [lia|].
  eexists. split; reflexivity.
Qed.

Lemma _get_truncated_header_witness :
  ∃ e,
    _get demo_linux 0 (demo_world ["o"; "001"; "000"]%byte)
    = (Raise e,
       set_obj 0 (set_inpipe [] (attrs (demo_world ["o"; "001"; "000"]%byte) 0))
         (demo_world ["o"; "001"; "000"]%byte))
    ∧ exc_type e = ConnectionReadError.
Proof.
  apply (_get_truncated_header demo_linux 0 (demo_world ["o"; "001"; "000"]%byte)).
  - repeat split; reflexivity.
  - apply Nat.ltb_lt. vm_compute. reflexivity.
Defined.



(** X6.  A frame whose format byte is none of the nine format characters
    makes [_get] raise [ConnectionReadError]; the whole frame, header
    and payload, has been read by then, so the next frame is intact. *)
Theorem _get_invalid_format (E : Env) (self : nat) (w : World) (format : byte)
    (req_num : Z) (data rest : list byte) :
  healthy w self →
  0 ≤ req_num ≤ 255 →
  Z.of_nat (length data) < 2 ^ 56 →
  Forall (fun c => format ≠ byte_of_ascii c) format_chars →
  inpipe (attrs w self) = frame_bytes format req_num data ++ rest →
  ∃ e,
    _get E self w = (Raise e, set_obj self (set_inpipe rest (attrs w self)) w)
    ∧ exc_type e = ConnectionReadError.
Proof.
  intros Hh Hn Hlen Hfmt Hpipe.
  unfold format_chars in Hfmt.
  repeat (apply Forall_cons in Hfmt as [? Hfmt]).
  unfold _get. unfold bind at 1.
  rewrite (_get_frame_reads self format req_num data rest w Hh Hpipe Hn Hlen) by assumption.
  unfold bind, _get_value. cbn [format_is].
  rewrite !byte_eqb_ne by assumption.
  eexists. split; reflexivity.
Qed.

Lemma _get_invalid_format_witness :
  let w := demo_world (frame_bytes "x" 7 ["h"; "i"]%byte ++ frame_bytes "b" 8 []) in
  ∃ e,
    _get demo_linux 0 w = (Raise e, set_obj 0 (set_inpipe (frame_bytes "b" 8 []) (attrs w 0)) w)
    ∧ exc_type e = ConnectionReadError.
Proof.
  intros w.
  apply (_get_invalid_format demo_linux 0 w "x"%byte 7 ["h"; "i"]%byte (frame_bytes "b" 8 [])).
  - repeat split; reflexivity.
  - lia.
  - simpl. lia.
  - unfold format_chars. repeat (constructor; [discriminate|]). constructor.
  - reflexivity.
Defined.

(** X7.  A frame of format [c] whose payload is a number under which the
    receiving side has registered no connection makes [_get] raise
    [KeyError]; the frame has been read. *)
Theorem _get_unknown_connection (E : Env) (self : nat) (w : World) (req_num : Z)
    (data rest : list byte) :
  healthy w self →
  0 ≤ req_num ≤ 255 →
  Z.of_nat (length data) < 2 ^ 56 →
  connection_dict w !! _b2i data = None →
  inpipe (attrs w self) = frame_bytes "c" req_num data ++ rest →
  ∃ e,
    _get E self w = (Raise e, set_obj self (set_inpipe rest (attrs w self)) w)
    ∧ exc_type e = KeyError.
Proof.
  intros Hh Hn Hlen Hnone Hpipe.
  unfold _get. unfold bind at 1.
  rewrite (_get_frame_reads self "c" req_num data rest w Hh Hpipe Hn Hlen) by discriminate.
  change (_get_value E self ["c"%byte] data)
    with (let! c := connection_dict_getitem (VInt (_b2i data)) in ret (VConn c)).
  unfold bind, connection_dict_getitem. cbn [connection_dict set_obj]. rewrite Hnone.
  eexists. split; reflexivity.
Qed.

Lemma _get_unknown_connection_witness :
  let w := demo_world (frame_bytes "c" 7 ["005"%byte] ++ []) in
  ∃ e,
    _get demo_linux 0 w = (Raise e, set_obj 0 (set_inpipe [] (attrs w 0)) w)
    ∧ exc_type e = KeyError.
Proof.
  intros w.
  apply (_get_unknown_connection demo_linux 0 w 7 ["005"%byte] []).
  - repeat split; reflexivity.
  - lia.
  - simpl. lia.
  - reflexivity.
  - reflexivity.
Defined.

(** ** Values across a connection *)

(** A frame written by [_write] and read by [_get] on the other side. *)
Lemma _write_delivers (Er : Env) (sender receiver : nat) (ws wr : World) (c : ascii)
    (payload : list byte) (req_num : Z) (v' : value) :
  (N_of_ascii c < 128)%N →
  byte_of_ascii c ≠ "q"%byte →
  healthy ws sender →
  healthy wr receiver →
  0 ≤ req_num ≤ 255 →
  Z.of_nat (length payload) < 2 ^ 56 →
  (∀ w', connection_dict w' = connection_dict wr →
         _get_value Er receiver [byte_of_ascii c] payload w' = (Ok v', w')) →
  ∃ ws',
    _write sender (String c EmptyString) payload req_num ws = (Ok tt, ws')
    ∧ ws' = set_obj sender
              (set_outpipe
                 (outpipe (attrs ws sender) ++ frame_bytes (byte_of_ascii c) req_num payload)
                 (attrs ws sender)) ws
    ∧ delivers Er sender receiver ws ws' wr req_num v'.
Proof.
  intros Hc Hq Hs Hr Hn Hlen Hval.
  eexists. split; [apply _write_emits; assumption|].
  split; [reflexivity|].
  exists (frame_bytes (byte_of_ascii c) req_num payload).
  split; [rewrite attrs_set_obj; reflexivity|].
  intros rest Hpipe.
  apply (_get_reads Er receiver (byte_of_ascii c, payload) v' req_num rest wr Hr Hn);
    [|exact Hpipe].
  repeat split; assumption.
Qed.

(** X8.  A byte buffer shorter than 2^56 bytes that [_put] sends under a
    request number from 0 to 255 is returned by [_get] on the other side
    as the same buffer under the same number: buffers travel raw, no
    serialiser is involved. *)
Theorem put_get_buffer (Es Er : Env) (sender receiver : nat) (ws wr : World)
    (buf : list byte) (req_num : Z) :
  healthy ws sender →
  healthy wr receiver →
  0 ≤ req_num ≤ 255 →
  Z.of_nat (length buf) < 2 ^ 56 →
  ∃ ws',
    _put Es sender (VBytes buf) req_num ws = (Ok tt, ws')
    ∧ delivers Er sender receiver ws ws' wr req_num (VBytes buf).
Proof.
  intros Hs Hr Hn Hlen.
  destruct (_write_delivers Er sender receiver ws wr "b" buf req_num (VBytes buf))
    as (ws' & Hw & _ & Hd); try assumption; try reflexivity; try discriminate.
  exists ws'. split; [exact Hw | exact Hd].
Qed.

Lemma put_get_buffer_witness :
  ∃ ws',
    _put demo_linux 0 (VBytes ["h"; "i"]%byte) 7 (demo_world []) = (Ok tt, ws')
    ∧ delivers demo_bsd 0 0 (demo_world []) ws' (demo_world (frame_bytes "b" 7 ["h"; "i"]%byte))
        7 (VBytes ["h"; "i"]%byte).
Proof.
  apply (put_get_buffer demo_linux demo_bsd 0 0 (demo_world [])
           (demo_world (frame_bytes "b" 7 ["h"; "i"]%byte)) ["h"; "i"]%byte 7).
  - repeat split; reflexivity.
  - repeat split; reflexivity.
  - lia.
  - simpl. lia.
Defined.



(** X10.  A connection object whose number is [n], [n] not negative,
    travels as that number: [_get] on the other side returns the
    connection that the receiving side has registered under [n] in its
    own [connection_dict], whatever kind of connection was sent. *)
Theorem put_get_connection (Es Er : Env) (sender receiver : nat) (ws wr : World)
    (c peer : Conn) (n req_num : Z) :
  conn_number_of ws c = n →
  0 ≤ n →
  (bit_length n + 7) / 8 < 2 ^ 56 →
  connection_dict wr !! n = Some peer →
  healthy ws sender →
  healthy wr receiver →
  0 ≤ req_num ≤ 255 →
  ∃ ws',
    _put Es sender (VConn c) req_num ws = (Ok tt, ws')
    ∧ delivers Er sender receiver ws ws' wr req_num (VConn peer).
Proof.
  intros Hnum Hn Hsize Hpeer Hs Hr Hreq.
  cbn [_put]. unfold _putconn, bind, get_conn_number, lift. rewrite Hnum.
  rewrite _i2b_minimal by exact Hn.
  set (payload := be_digits (Z.to_nat ((bit_length n + 7) / 8)) n).
  destruct (bit_length_bytes n Hn) as [Hk Hlt].
  assert (Hb2i : _b2i payload = n).
  { unfold _b2i, payload. apply from_bytes_be_digits_small. rewrite Z2Nat.id by lia. lia. }
  destruct (_write_delivers Er sender receiver ws wr "c" payload req_num (VConn peer))
    as (ws' & Hw & _ & Hd); try assumption; try reflexivity; try discriminate.
  - unfold payload. rewrite be_digits_length. lia.
  - intros w' Hdict.
    change (_get_value Er receiver [byte_of_ascii "c"] payload)
      with (let! c := connection_dict_getitem (VInt (_b2i payload)) in ret (VConn c)).
    unfold bind, connection_dict_getitem. rewrite Hb2i, Hdict, Hpeer. reflexivity.
  - exists ws'. split; [exact Hw | exact Hd].
Qed.

Lemma put_get_connection_witness :
  ∃ ws',
    _put demo_linux 0 (VConn (RedirectedConnection 1 0 LocalConnection)) 7 (demo_world [])
    = (Ok tt, ws')
    ∧ delivers demo_bsd 0 0 (demo_world []) ws' (demo_world []) 7 (VConn (PipeConnection 0)).
Proof.
  apply (put_get_connection demo_linux demo_bsd 0 0 (demo_world []) (demo_world [])
           (RedirectedConnection 1 0 LocalConnection) (PipeConnection 0) 1 7).
  - reflexivity.
  - lia.
  - vm_compute. reflexivity.
  - reflexivity.
  - repeat split; reflexivity.
  - repeat split; reflexivity.
  - lia.
Defined.

(** X11.  Sending a file object registers it in the sender's table of
    virtual files under the next number, [_counter + 1], and what
    arrives is a [VirtualFile] handle with that number, bound to the
    receiving connection; an iterator is registered wrapped in
    [MiscIterToFile] and arrives as [FileToMiscIter] around such a
    handle. *)
Theorem put_get_stream (Es Er : Env) (sender receiver : nat) (ws wr : World)
    (name : string) (req_num : Z) :
  -1 ≤ _counter ws →
  (bit_length (_counter ws + 1) + 7) / 8 < 2 ^ 56 →
  healthy ws sender →
  healthy wr receiver →
  0 ≤ req_num ≤ 255 →
  (∃ ws',
     _put Es sender (VFileObj name) req_num ws = (Ok tt, ws')
     ∧ _counter ws' = _counter ws + 1
     ∧ _vfiles ws' = <[_counter ws + 1 := VFileObj name]> (_vfiles ws)
     ∧ delivers Er sender receiver ws ws' wr req_num
         (VVirtualFile (PipeConnection receiver) (_counter ws + 1)))
  ∧ (∃ ws',
       _put Es sender (VIterator name) req_num ws = (Ok tt, ws')
       ∧ _counter ws' = _counter ws + 1
       ∧ _vfiles ws' = <[_counter ws + 1 := VMiscIterToFile (VIterator name)]> (_vfiles ws)
       ∧ delivers Er sender receiver ws ws' wr req_num
           (VFileToMiscIter (VVirtualFile (PipeConnection receiver) (_counter ws + 1)))).
Proof.
  intros Hcount Hsize Hs Hr Hreq.
  set (id := _counter ws + 1) in *.
  assert (Hid : 0 ≤ id) by (unfold id; lia).
  set (payload := be_digits (Z.to_nat ((bit_length id + 7) / 8)) id).
  destruct (bit_length_bytes id Hid) as [Hk Hlt].
  assert (Hb2i : _b2i payload = id).
  { unfold _b2i, payload. apply from_bytes_be_digits_small. rewrite Z2Nat.id by lia. lia. }
  assert (Hlen : Z.of_nat (length payload) < 2 ^ 56)
    by (unfold payload; rewrite be_digits_length; lia).
  split.
  - cbn [_put]. unfold _putfile. unfold bind at 1. unfold VirtualFile_new at 1. fold id.
    unfold bind, lift. rewrite _i2b_minimal by exact Hid. fold payload.
    set (ws0 := set_vfiles (<[id := VFileObj name]> (_vfiles ws)) id ws).
    destruct (_write_delivers Er sender receiver ws0 wr "f" payload req_num
                (VVirtualFile (PipeConnection receiver) id))
      as (ws' & Hw & Hws' & Hd); try assumption; try reflexivity; try discriminate.
    + intros w' _.
      change (_get_value Er receiver [byte_of_ascii "f"] payload w')
        with (Ok (VVirtualFile (PipeConnection receiver) (_b2i payload)), w').
      rewrite Hb2i. reflexivity.
    + exists ws'. split; [exact Hw|]. subst ws'. repeat split; [reflexivity.. | exact Hd].
  - cbn [_put]. unfold _putiter. unfold bind at 1. unfold VirtualFile_new at 1. fold id.
    unfold bind, lift. rewrite _i2b_minimal by exact Hid. fold payload.
    set (ws0 := set_vfiles (<[id := VMiscIterToFile (VIterator name)]> (_vfiles ws)) id ws).
    destruct (_write_delivers Er sender receiver ws0 wr "i" payload req_num
                (VFileToMiscIter (VVirtualFile (PipeConnection receiver) id)))
      as (ws' & Hw & Hws' & Hd); try assumption; try reflexivity; try discriminate.
    + intros w' _.
      change (_get_value Er receiver [byte_of_ascii "i"] payload w')
        with (Ok (VFileToMiscIter (VVirtualFile (PipeConnection receiver) (_b2i payload))), w').
      rewrite Hb2i. reflexivity.
    + exists ws'. split; [exact Hw|]. subst ws'. repeat split; [reflexivity.. | exact Hd].
Qed.

Lemma put_get_stream_witness :
  let ws := demo_world [] in
  (∃ ws',
     _put demo_linux 0 (VFileObj "source") 7 ws = (Ok tt, ws')
     ∧ _counter ws' = _counter ws + 1
     ∧ _vfiles ws' = <[_counter ws + 1 := VFileObj "source"]> (_vfiles ws)
     ∧ delivers demo_bsd 0 0 ws ws' (demo_world []) 7
         (VVirtualFile (PipeConnection 0) (_counter ws + 1)))
  ∧ (∃ ws',
       _put demo_linux 0 (VIterator "source") 7 ws = (Ok tt, ws')
       ∧ _counter ws' = _counter ws + 1
       ∧ _vfiles ws' = <[_counter ws + 1 := VMiscIterToFile (VIterator "source")]> (_vfiles ws)
       ∧ delivers demo_bsd 0 0 ws ws' (demo_world []) 7
           (VFileToMiscIter (VVirtualFile (PipeConnection 0) (_counter ws + 1)))).
Proof.
  intros ws.
  apply (put_get_stream demo_linux demo_bsd 0 0 ws (demo_world []) "source" 7).
  - simpl. lia.
  - vm_compute. reflexivity.
  - repeat split; reflexivity.
  - repeat split; reflexivity.
  - lia.
Defined.

(** X12.  A path with a connection ([RPath] or [QuotedRPath]) travels as
    the tuple of its connection's number, base, index and data; on the
    other side it is rebuilt around the connection that the receiver has
    registered under that number.  A path without connection ([RORPath])
    travels as the pair of index and data and is rebuilt from it.  This
    holds when the receiver's [pickle.loads] inverts the sender's
    [pickle.dumps] on these tuples. *)
Theorem put_get_paths (Es Er : Env) (sender receiver : nat) (ws wr : World)
    (conn peer : Conn) (n : Z) (base index data : value) (req_num : Z) :
  let with_conn := VTuple [VInt n; base; index; data] in
  let bare := VTuple [index; data] in
  conn_number_of ws conn = n →
  connection_dict wr !! n = Some peer →
  pickle_loads Er (pickle_dumps Es with_conn) = Ok with_conn →
  pickle_loads Er (pickle_dumps Es bare) = Ok bare →
  Z.of_nat (length (pickle_dumps Es with_conn)) < 2 ^ 56 →
  Z.of_nat (length (pickle_dumps Es bare)) < 2 ^ 56 →
  healthy ws sender →
  healthy wr receiver →
  0 ≤ req_num ≤ 255 →
  (∃ ws',
     _put Es sender (VRPath conn base index data) req_num ws = (Ok tt, ws')
     ∧ delivers Er sender receiver ws ws' wr req_num (VRPath peer base index data))
  ∧ (∃ ws',
       _put Es sender (VQuotedRPath conn base index data) req_num ws = (Ok tt, ws')
       ∧ delivers Er sender receiver ws ws' wr req_num (VQuotedRPath peer base index data))
  ∧ (∃ ws',
       _put Es sender (VRORPath index data) req_num ws = (Ok tt, ws')
       ∧ delivers Er sender receiver ws ws' wr req_num (VRORPath index data)).
Proof.
  intros with_conn bare Hnum Hpeer Hp4 Hp2 Hl4 Hl2 Hs Hr Hreq.
  split; [|split].
  - cbn [_put]. unfold _putrpath, bind, get_conn_number. rewrite Hnum. fold with_conn.
    destruct (_write_delivers Er sender receiver ws wr "R" (pickle_dumps Es with_conn) req_num
                (VRPath peer base index data))
      as (ws' & Hw & _ & Hd); try assumption; try reflexivity; try discriminate.
    + intros w' Hdict.
      change (_get_value Er receiver [byte_of_ascii "R"] (pickle_dumps Es with_conn))
        with (_getrpath Er (pickle_dumps Es with_conn)).
      unfold _getrpath, bind, lift. rewrite Hp4. unfold with_conn.
      unfold connection_dict_getitem. rewrite Hdict, Hpeer. reflexivity.
    + exists ws'. split; [exact Hw | exact Hd].
  - cbn [_put]. unfold _putqrpath, bind, get_conn_number. rewrite Hnum. fold with_conn.
    destruct (_write_delivers Er sender receiver ws wr "Q" (pickle_dumps Es with_conn) req_num
                (VQuotedRPath peer base index data))
      as (ws' & Hw & _ & Hd); try assumption; try reflexivity; try discriminate.
    + intros w' Hdict.
      change (_get_value Er receiver [byte_of_ascii "Q"] (pickle_dumps Es with_conn))
        with (_getqrpath Er (pickle_dumps Es with_conn)).
      unfold _getqrpath, bind, lift. rewrite Hp4. unfold with_conn.
      unfold connection_dict_getitem. rewrite Hdict, Hpeer. reflexivity.
    + exists ws'. split; [exact Hw | exact Hd].
  - cbn [_put]. unfold _putrorpath. fold bare.
    destruct (_write_delivers Er sender receiver ws wr "r" (pickle_dumps Es bare) req_num
                (VRORPath index data))
      as (ws' & Hw & _ & Hd); try assumption; try reflexivity; try discriminate.
    + intros w' _.
      change (_get_value Er receiver [byte_of_ascii "r"] (pickle_dumps Es bare))
        with (_getrorpath Er (pickle_dumps Es bare)).
      unfold _getrorpath, bind, lift. rewrite Hp2. reflexivity.
    + exists ws'. split; [exact Hw | exact Hd].
Qed.

Lemma put_get_paths_witness :
  let ws := demo_world [] in
  let wr := demo_world [] in
  (∃ ws',
     _put demo_path_env 0 (VRPath (PipeConnection 0) (VStr "/srv") (VTuple []) VNone) 7 ws
     = (Ok tt, ws')
     ∧ delivers demo_path_env 0 0 ws ws' wr 7
         (VRPath (PipeConnection 0) (VStr "/srv") (VTuple []) VNone))
  ∧ (∃ ws',
       _put demo_path_env 0 (VQuotedRPath (PipeConnection 0) (VStr "/srv") (VTuple []) VNone)
         7 ws
       = (Ok tt, ws')
       ∧ delivers demo_path_env 0 0 ws ws' wr 7
           (VQuotedRPath (PipeConnection 0) (VStr "/srv") (VTuple []) VNone))
  ∧ (∃ ws',
       _put demo_path_env 0 (VRORPath (VTuple []) VNone) 7 ws = (Ok tt, ws')
       ∧ delivers demo_path_env 0 0 ws ws' wr 7 (VRORPath (VTuple []) VNone)).
Proof.
  intros ws wr.
  apply (put_get_paths demo_path_env demo_path_env 0 0 ws wr (PipeConnection 0)
           (PipeConnection 0) 1 (VStr "/srv") (VTuple []) VNone 7).
  - reflexivity.
  - reflexivity.
  - reflexivity.
  - reflexivity.
  - simpl. lia.
  - simpl. lia.
  - repeat split; reflexivity.
  - repeat split; reflexivity.
  - lia.
Defined.

(** ** Request numbers never appear from nowhere *)

Lemma keeps_gains {A} x extra (m : M A) : keeps_unused x m → gains_at_most x extra m.
Proof. intros Hk w r w' H. rewrite (Hk _ _ _ H). apply union_subseteq_r. Qed.

Lemma gains_weaken {A} x (extra extra' : gset Z) (m : M A) :
  extra ⊆ extra' → gains_at_most x extra m → gains_at_most x extra' m.
Proof.
  intros Hsub Hm w r w' H. etransitivity; [eapply Hm; exact H|].
  apply union_mono_r. exact Hsub.
Qed.

Lemma gains_bind {A B} x extra (m : M A) (k : A → M B) :
  gains_at_most x extra m → (∀ a, gains_at_most x extra (k a)) →
  gains_at_most x extra (bind m k).
Proof.
  intros Hm Hk w r w'. unfold bind.
  destruct (m w) as [[a | e |] w1] eqn:Hmw; intros H.
  - etransitivity; [eapply Hk; exact H|].
    apply union_least; [apply union_subseteq_l | eapply Hm; exact Hmw].
  - injection H as _ <-. eapply Hm; exact Hmw.
  - injection H as _ <-. eapply Hm; exact Hmw.
Qed.

Lemma gains_try_except {A} x extra (m : M A) (h : exn → M A) :
  gains_at_most x extra m → (∀ e, gains_at_most x extra (h e)) →
  gains_at_most x extra (try_except m h).
Proof.
  intros Hm Hh w r w'. unfold try_except.
  destruct (m w) as [[a | e |] w1] eqn:Hmw; intros H.
  - injection H as _ <-. eapply Hm; exact Hmw.
  - etransitivity; [eapply Hh; exact H|].
    apply union_least; [apply union_subseteq_l | eapply Hm; exact Hmw].
  - injection H as _ <-. eapply Hm; exact Hmw.
Qed.

Lemma gains_unused_add self req_num (extra : gset Z) :
  req_num ∈ extra → gains_at_most self extra (unused_add self req_num).
Proof.
  intros Hin w r w' [= _ <-]. unfold unused at 1. rewrite attrs_set_obj.
  cbn [unused_request_numbers set_unused].
  apply union_mono_r. apply singleton_subseteq_l. exact Hin.
Qed.

Lemma gains_unused_remove self req_num extra :
  gains_at_most self extra (unused_remove self req_num).
Proof.
  intros w r w'. unfold unused_remove. case_bool_decide; intros [= _ <-].
  - unfold unused at 1. rewrite attrs_set_obj. cbn [unused_request_numbers set_unused].
    etransitivity; [apply subseteq_difference_l; reflexivity | apply union_subseteq_r].
  - apply union_subseteq_r.
Qed.

Lemma gains__get_new_req_num E self extra :
  gains_at_most self extra (_get_new_req_num E self).
Proof.
  intros w r w'. unfold _get_new_req_num. case_bool_decide; intros [= _ <-].
  - apply union_subseteq_r.
  - unfold unused at 1. rewrite attrs_set_obj. cbn [unused_request_numbers set_unused].
    etransitivity; [apply subseteq_difference_l; reflexivity | apply union_subseteq_r].
Qed.

Lemma absorb_back (s t : gset Z) (x : Z) : x ∈ s → t ⊆ {[x]} ∪ s ∖ {[x]} → t ⊆ s.
Proof. intros Hx Ht. rewrite add_back in Ht by exact Hx. exact Ht. Qed.

Section NeverGains.

Variable E : Env.
Variable apply : value → list value → M value.
Variable self : nat.

(** The callables that run while requests are answered add nothing to
    the unused request numbers of this connection. *)
Hypothesis apply_adds_nothing : ∀ func args, gains_at_most self ∅ (apply func args).

Lemma gains_evaluate_request extra function_string num_args argument_list :
  gains_at_most self extra (evaluate_request E apply function_string num_args argument_list).
Proof.
  unfold evaluate_request. apply gains_try_except.
  - destruct (vet_request E function_string num_args argument_list).
    + apply keeps_gains. auto with keeps.
    + apply gains_bind; [apply keeps_gains; auto with keeps|].
      intros func. eapply gains_weaken; [|apply apply_adds_nothing]. apply empty_subseteq.
  - intros e. apply keeps_gains. auto with keeps.
Qed.

Lemma gains_read_arguments extra req_num n :
  gains_at_most self extra (read_arguments E self req_num n).
Proof.
  apply keeps_gains. induction n as [|n IH]; cbn [read_arguments]; [auto with keeps|].
  apply keeps_bind; [auto with keeps|].
  intros [arg_req_num arg]. auto 10 with keeps.
Qed.

Lemma gains__answer_request function_string num_args req_num :
  gains_at_most self ∅ (_answer_request E apply self function_string num_args req_num).
Proof.
  intros w r w'. unfold _answer_request. unfold bind at 1.
  destruct (unused_remove self req_num w) as [[[] | e |] w1] eqn:Hrem.
  2,3: unfold unused_remove in Hrem; case_bool_decide; try discriminate Hrem;
       injection Hrem as _ <-; intros [= _ <-]; apply union_subseteq_r.
  apply unused_remove_Ok in Hrem as [Hin Hw1].
  intros H. rewrite union_empty_l_L.
  apply (absorb_back _ _ req_num Hin). rewrite <- Hw1.
  revert H. apply gains_bind; [apply gains_read_arguments|]. intros argument_list.
  apply gains_bind; [apply gains_evaluate_request|]. intros result.
  apply gains_bind; [apply keeps_gains; auto with keeps|]. intros _.
  apply gains_unused_add. apply elem_of_singleton. reflexivity.
Qed.

Lemma gains__get_response fuel desired_req_num :
  gains_at_most self ∅ (_get_response E apply fuel self desired_req_num).
Proof.
  induction fuel as [|fuel IH]; cbn [_get_response].
  - intros w r w' [= _ <-]. apply union_subseteq_r.
  - apply gains_bind.
    + apply keeps_gains. apply keeps_try_except; [auto 10 with keeps|].
      intros e. auto with keeps.
    + intros [[req_num object]|].
      * destruct (req_num =? desired_req_num); [apply keeps_gains; auto with keeps|].
        destruct object; try (apply keeps_gains; solve [auto with keeps]).
        apply gains_bind; [apply gains__answer_request|]. intros _. exact IH.
      * apply gains_bind; [apply gains__get_new_req_num|]. intros n.
        apply keeps_gains. auto 10 with keeps.
Qed.

(** X13.  Whatever way they end (result, exception, or still waiting),
    [reval] and the loop of [_get_response] (and so [Server]) leave the
    connection with no unused request number that it did not have
    before: the only numbers ever put back are numbers taken out
    earlier.  The callables run for inbound requests are taken to add
    none themselves. *)
Theorem request_numbers_never_appear (fuel : nat) (function_string : string)
    (args : list value) (desired_req_num : Z) (w : World) :
  set_pop_valid E →
  unused (snd (PipeConnection_reval E apply fuel self function_string args w)) self
  ⊆ unused w self
  ∧ unused (snd (_get_response E apply fuel self desired_req_num w)) self ⊆ unused w self.
Proof.
  intros Hpop. split.
  - destruct (PipeConnection_reval E apply fuel self function_string args w)
      as [r w'] eqn:Hrun. cbn [snd].
    revert Hrun. unfold PipeConnection_reval. unfold bind at 1.
    destruct (_get_new_req_num E self w) as [[req_num | e |] w1] eqn:Hnum.
    2,3: unfold _get_new_req_num in Hnum; case_bool_decide; try discriminate Hnum;
         injection Hnum as _ <-; intros [= _ <-]; reflexivity.
    apply (_get_new_req_num_Ok E self _ _ _ Hpop) in Hnum as [Hin Hw1].
    intros H. apply (absorb_back _ _ req_num Hin). rewrite <- Hw1.
    revert H. apply gains_bind; [apply keeps_gains; auto with keeps|]. intros _.
    apply gains_bind.
    { apply keeps_gains. induction args as [|arg rest IH]; cbn [put_arguments];
        auto with keeps. }
    intros _. apply gains_bind.
    { eapply gains_weaken; [|apply gains__get_response]. apply empty_subseteq. }
    intros result. apply gains_bind; [|intros _; apply keeps_gains; auto with keeps].
    apply gains_unused_add. apply elem_of_singleton. reflexivity.
  - destruct (_get_response E apply fuel self desired_req_num w) as [r w'] eqn:Hrun.
    cbn [snd]. apply gains__get_response in Hrun.
    rewrite union_empty_l_L in Hrun. exact Hrun.
Qed.

End NeverGains.

Lemma demo_call_adds_nothing self func args : gains_at_most self ∅ (demo_call func args).
Proof. apply keeps_gains. apply demo_call_keeps. Qed.

Lemma request_numbers_never_appear_witness :
  let w := demo_world demo_reentrant_input in
  unused (snd (PipeConnection_reval demo_linux demo_call 5 0 "pow" [VInt 2; VInt 8] w)) 0
  ⊆ unused w 0
  ∧ unused (snd (_get_response demo_linux demo_call 5 0 (-1) w)) 0 ⊆ unused w 0.
Proof.
  intros w.
  apply (request_numbers_never_appear demo_linux demo_call 0 (demo_call_adds_nothing 0)
           5 "pow" [VInt 2; VInt 8] (-1) w).
  apply demo_set_pop_valid.
Defined.




(** ** The loop of [_get_response] *)

Lemma _get_req_num_range E self w req_num v w' :
  _get E self w = (Ok (req_num, v), w') → 0 ≤ req_num ≤ 255.
Proof.
  unfold _get. intros H.
  apply bind_Ok_inv in H as ([[format_string n] data] & w1 & Hframe & H).
  apply bind_Ok_inv in H as (result & w2 & _ & H).
  injection H as <- _ _.
  unfold _get_frame in Hframe.
  apply bind_Ok_inv in Hframe as (header_string & w3 & _ & Hframe).
  destruct (negb (length header_string =? 9)%nat); [discriminate|].
  destruct (format_is (take 1 header_string) "q"); [discriminate|].
  apply bind_Ok_inv in Hframe as (d & w4 & _ & Hframe).
  injection Hframe as _ <- _ _.
  pose proof (from_bytes_range (take 1 (drop 1 header_string))) as Hr.
  fold (_b2i (take 1 (drop 1 header_string))) in Hr.
  assert (Hlen : (length (take 1 (drop 1 header_string)) ≤ 1)%nat)
    by (rewrite length_take; lia).
  assert (Hpow : 256 ^ Z.of_nat (length (take 1 (drop 1 header_string))) ≤ 256).
  { change 256 with (256 ^ 1) at 2. apply Z.pow_le_mono_r; lia. }
  lia.
Qed.

(** One frame, read in the loop: what [_get_response] does with it. *)
Lemma _get_response_step E apply fuel self desired_req_num frame v req_num rest w :
  healthy w self →
  0 ≤ req_num ≤ 255 →
  decodes E self w frame v →
  inpipe (attrs w self) = frame_bytes (fst frame) req_num (snd frame) ++ rest →
  _get_response E apply (S fuel) self desired_req_num w
  = (if req_num =? desired_req_num then ret v
     else match v with
          | VRequest function_string num_args =>
              let! _ := _answer_request E apply self function_string num_args req_num in
              _get_response E apply fuel self desired_req_num
          | _ => raise (mk_exn AssertionError "Object isn't a connection request")
          end)
      (set_obj self (set_inpipe rest (attrs w self)) w).
Proof.
  intros Hh Hn Hdec Hpipe.
  cbn [_get_response]. unfold bind at 1. unfold try_except, bind at 1.
  rewrite (_get_reads E self frame v req_num rest w Hh Hn Hdec Hpipe).
  reflexivity.
Qed.

(** X15.  The first frame that [_get_response] reads, with request
    number [n] and value [v]: if [n] is the awaited number, [v] is
    returned as the response, whatever it is; if [n] is another number
    and [v] is not a request record, the loop raises [AssertionError];
    if [v] is a request record under a number [n] that this side does
    not have among its unused numbers, the loop raises [KeyError].  In
    each case exactly that frame has been read and nothing was written. *)
Theorem _get_response_first_frame (E : Env) (apply : value → list value → M value)
    (fuel : nat) (self : nat) (desired_req_num : Z) (frame : byte * list byte)
    (v : value) (n : Z) (rest : list byte) (w : World) :
  healthy w self →
  0 ≤ n ≤ 255 →
  decodes E self w frame v →
  inpipe (attrs w self) = frame_bytes (fst frame) n (snd frame) ++ rest →
  let w1 := set_obj self (set_inpipe rest (attrs w self)) w in
  (n = desired_req_num →
   _get_response E apply (S fuel) self desired_req_num w = (Ok v, w1))
  ∧ (n ≠ desired_req_num →
     (∀ function_string num_args, v ≠ VRequest function_string num_args) →
     ∃ e,
       _get_response E apply (S fuel) self desired_req_num w = (Raise e, w1)
       ∧ exc_type e = AssertionError)
  ∧ (n ≠ desired_req_num →
     n ∉ unused w self →
     (∃ function_string num_args, v = VRequest function_string num_args) →
     ∃ e,
       _get_response E apply (S fuel) self desired_req_num w = (Raise e, w1)
       ∧ exc_type e = KeyError).
Proof.
  intros Hh Hn Hdec Hpipe w1.
  rewrite (_get_response_step E apply fuel self desired_req_num frame v n rest w Hh Hn Hdec Hpipe).
  fold w1. split; [|split].
  - intros ->. rewrite Z.eqb_refl. reflexivity.
  - intros Hne Hv. destruct (Z.eqb_spec n desired_req_num); [contradiction|].
    destruct v; try (eexists; split; reflexivity).
    exfalso. eapply Hv. reflexivity.
  - intros Hne Hnotin (function_string & num_args & ->).
    destruct (Z.eqb_spec n desired_req_num); [contradiction|].
    unfold _answer_request, bind, unused_remove.
    assert (Hw1 : unused w1 self = unused w self)
      by (unfold w1; apply unused_set_obj; reflexivity).
    rewrite Hw1, bool_decide_eq_false_2 by exact Hnotin.
    eexists. split; reflexivity.
Qed.

Lemma _get_response_first_frame_witness :
  let frame := ("o"%byte, demo_dumps (VStr "hello")) in
  let w := demo_world (frame_bytes (fst frame) 7 (snd frame) ++ []) in
  let w1 := set_obj 0 (set_inpipe [] (attrs w 0)) w in
  (7 = 7 → _get_response demo_linux demo_call 3 0 7 w = (Ok (VStr "hello"), w1))
  ∧ (7 ≠ 7 →
     (∀ function_string num_args, VStr "hello" ≠ VRequest function_string num_args) →
     ∃ e,
       _get_response demo_linux demo_call 3 0 7 w = (Raise e, w1)
       ∧ exc_type e = AssertionError)
  ∧ (7 ≠ 7 →
     7 ∉ unused w 0 →
     (∃ function_string num_args, VStr "hello" = VRequest function_string num_args) →
     ∃ e,
       _get_response demo_linux demo_call 3 0 7 w = (Raise e, w1)
       ∧ exc_type e = KeyError).
Proof.
  intros frame w w1.
  apply (_get_response_first_frame demo_linux demo_call 2 0 7 frame (VStr "hello") 7 [] w).
  - repeat split; reflexivity.
  - lia.
  - split; [discriminate|]. split; [simpl; lia|]. intros w' _. reflexivity.
  - reflexivity.
Defined.

(** X16.  [Server] waits for the request number -1, which no frame can
    carry; so when it returns, it does so because a quit signal was
    received: the pipes of the connection have been closed. *)
Theorem Server_returns_after_quit (E : Env) (apply : value → list value → M value)
    (fuel : nat) (self : nat) (w w' : World) :
  Server E apply fuel self w = (Ok tt, w') →
  closed (attrs w' self) = true.
Proof.
  unfold Server. intros H.
  apply bind_Ok_inv in H as (v & w1 & Hloop & H). injection H as <-.
  revert w Hloop. induction fuel as [|fuel IH]; intros w; cbn [_get_response];
    [discriminate|].
  intros H. apply bind_Ok_inv in H as (got & w2 & Hgot & H).
  destruct got as [[req_num object]|].
  - assert (Hrange : 0 ≤ req_num ≤ 255).
    { unfold try_except in Hgot.
      destruct (bind (_get E self) (fun r => ret (Some r)) w) as [[a | e |] w3] eqn:Hg.
      - injection Hgot as -> <-.
        apply bind_Ok_inv in Hg as ([r x] & w4 & Hget & Hret).
        injection Hret as <- <- _. eapply _get_req_num_range. exact Hget.
      - destruct (isinstance e ConnectionQuit); discriminate Hgot.
      - discriminate Hgot. }
    destruct (Z.eqb_spec req_num (-1)); [lia|].
    destruct object; try discriminate H.
    apply bind_Ok_inv in H as ([] & w3 & _ & H). eapply IH. exact H.
  - apply bind_Ok_inv in H as (n & w3 & _ & H).
    apply bind_Ok_inv in H as ([] & w4 & _ & H).
    apply bind_Ok_inv in H as ([] & w5 & Hclose & H).
    injection H as _ <-. injection Hclose as <-.
    rewrite attrs_set_obj. reflexivity.
Qed.

Lemma Server_returns_after_quit_witness :
  let w := demo_world (frame_bytes "o" 7 (demo_dumps (VRequest "len" 1))
                       ++ frame_bytes "o" 7 (demo_dumps (VStr "hello"))
                       ++ frame_bytes "q" 255 []) in
  closed (attrs (snd (Server demo_linux demo_call 5 0 w)) 0) = true.
Proof.
  intros w.
  apply (Server_returns_after_quit demo_linux demo_call 5 0 w).
  vm_compute. reflexivity.
Defined.

(** ** Shutting a connection down *)

Lemma healthy_set_outpipe self bs w :
  healthy w self → healthy (set_obj self (set_outpipe bs (attrs w self)) w) self.
Proof. intros Hh. unfold healthy. rewrite attrs_set_obj. exact Hh. Qed.

(** X17.  The two halves of a shutdown.  On the client, [quit] writes the
    nine bytes of the quit frame (format [q], number 255, length 0),
    reads one frame, the acknowledgement, and closes its pipes.  On the
    server, [Server] reading that quit frame takes a request number [r]
    from the unused ones, writes the object "quitting" under it, closes
    its pipes and returns.  Each side reads exactly the other side's
    frame. *)
Theorem quit_handshake (Es Ec : Env) (apply : value → list value → M value) (fuel : nat)
    (server client : nat) (ws wc : World) (rest_s rest_c : list byte) (v : value) :
  let r := set_pop Es (unused ws server) in
  let ack := pickle_dumps Es (VStr "quitting") in
  healthy wc client →
  healthy ws server →
  unused ws server ≠ ∅ →
  0 ≤ r ≤ 255 →
  Z.of_nat (length ack) < 2 ^ 56 →
  pickle_loads Ec ack = Ok v →
  inpipe (attrs ws server) = frame_bytes "q" 255 [] ++ rest_s →
  inpipe (attrs wc client) = frame_bytes "o" r ack ++ rest_c →
  (∃ wc',
     quit Ec false client wc = (Ok tt, wc')
     ∧ outpipe (attrs wc' client) = outpipe (attrs wc client) ++ frame_bytes "q" 255 []
     ∧ inpipe (attrs wc' client) = rest_c
     ∧ closed (attrs wc' client) = true)
  ∧ (∃ ws',
       Server Es apply (S fuel) server ws = (Ok tt, ws')
       ∧ outpipe (attrs ws' server) = outpipe (attrs ws server) ++ frame_bytes "o" r ack
       ∧ inpipe (attrs ws' server) = rest_s
       ∧ closed (attrs ws' server) = true
       ∧ unused ws' server = unused ws server ∖ {[r]}).
Proof.
  intros r ack Hc Hs Hne Hr Hlen Hloads Hpipe_s Hpipe_c.
  split.
  - unfold quit, _putquit. unfold bind at 1.
    rewrite (_write_emits client "q" [] 255 wc) by
      (first [reflexivity | exact Hc | lia | simpl; lia]).
    set (w1 := set_obj client _ wc).
    assert (Hh1 : healthy w1 client) by (apply healthy_set_outpipe; exact Hc).
    unfold bind at 1.
    rewrite (_get_reads Ec client ("o"%byte, ack) v r rest_c w1 Hh1 Hr).
    + unfold bind, _close. eexists. split; [reflexivity|].
      rewrite !attrs_set_obj. unfold w1. rewrite attrs_set_obj.
      repeat split; reflexivity.
    + split; [discriminate|]. split; [exact Hlen|]. intros w' _.
      change (_get_value Ec client [fst ("o"%byte, ack)] (snd ("o"%byte, ack)))
        with (lift (pickle_loads Ec ack)).
      rewrite Hloads. reflexivity.
    + unfold w1. rewrite attrs_set_obj. exact Hpipe_c.
  - unfold Server. unfold bind at 1. cbn [_get_response].
    unfold bind at 1. unfold try_except, bind at 1. unfold _get at 1. unfold bind at 1.
    rewrite (_get_frame_quit server (be_digits 1 255 ++ be_digits 7 0) rest_s ws Hs)
      by (first [reflexivity | exact Hpipe_s]).
    change (isinstance (mk_exn ConnectionQuit "Received quit signal") ConnectionQuit) with true.
    cbv iota. unfold ret at 1.
    set (w1 := set_obj server _ ws).
    assert (Hh1 : healthy w1 server) by (apply healthy_set_inpipe; exact Hs).
    assert (Hu1 : unused w1 server = unused ws server)
      by (apply unused_set_obj; reflexivity).
    unfold bind at 1. unfold _get_new_req_num at 1.
    rewrite Hu1, bool_decide_eq_false_2 by exact Hne. fold r.
    set (w2 := set_obj server _ w1).
    assert (Hh2 : healthy w2 server) by (apply healthy_set_unused; exact Hh1).
    unfold bind at 1. cbn [_put]. unfold _putobj. fold ack.
    rewrite (_write_emits server "o" ack r w2) by
      (first [reflexivity | exact Hh2 | exact Hr | exact Hlen]).
    unfold bind, _close, ret. eexists. split; [reflexivity|].
    unfold unused. rewrite !attrs_set_obj. unfold w2. rewrite attrs_set_obj.
    unfold w1. rewrite attrs_set_obj.
    repeat split; reflexivity.
Qed.

Lemma quit_handshake_witness :
  let ws := demo_world (frame_bytes "q" 255 [] ++ []) in
  let r := set_pop demo_linux (unused ws 0) in
  let ack := pickle_dumps demo_linux (VStr "quitting") in
  let wc := demo_world (frame_bytes "o" r ack ++ []) in
  (∃ wc',
     quit demo_bsd false 0 wc = (Ok tt, wc')
     ∧ outpipe (attrs wc' 0) = outpipe (attrs wc 0) ++ frame_bytes "q" 255 []
     ∧ inpipe (attrs wc' 0) = []
     ∧ closed (attrs wc' 0) = true)
  ∧ (∃ ws',
       Server demo_linux demo_call 1 0 ws = (Ok tt, ws')
       ∧ outpipe (attrs ws' 0) = outpipe (attrs ws 0) ++ frame_bytes "o" r ack
       ∧ inpipe (attrs ws' 0) = []
       ∧ closed (attrs ws' 0) = true
       ∧ unused ws' 0 = unused ws 0 ∖ {[r]}).
Proof.
  intros ws r ack wc.
  apply (quit_handshake demo_linux demo_bsd demo_call 0 0 0 ws wc [] [] (VStr "quitting")).
  - repeat split; reflexivity.
  - repeat split; reflexivity.
  - apply (bool_decide_unpack (unused ws 0 ≠ ∅)). vm_compute. exact I.
  - vm_compute. split; discriminate.
  - vm_compute. reflexivity.
  - reflexivity.
  - reflexivity.
  - reflexivity.
Defined.

(** ** Requests that are refused or that fail *)

(** [_answer_request] once its arguments are read. *)
Lemma _answer_request_after_arguments E apply self function_string num_args req_num
    frames values rest w :
  req_num ∈ unused w self →
  0 ≤ req_num ≤ 255 →
  healthy w self →
  Forall2 (decodes E self w) frames values →
  length frames = Z.to_nat num_args →
  inpipe (attrs w self) = frames_bytes req_num frames ++ rest →
  _answer_request E apply self function_string num_args req_num w
  = (let! result := evaluate_request E apply function_string num_args values in
     let! _ := _put E self result req_num in
     unused_add self req_num)
      (set_obj self
         (set_inpipe rest (set_unused (unused w self ∖ {[req_num]}) (attrs w self))) w).
Proof.
  intros Hin Hbyte Hh Hdec Hlen Hpipe.
  set (w1 := set_obj self (set_unused (unused w self ∖ {[req_num]}) (attrs w self)) w).
  assert (Hattrs : attrs w1 self = set_unused (unused w self ∖ {[req_num]}) (attrs w self))
    by apply attrs_set_obj.
  unfold _answer_request. unfold bind at 1. unfold unused_remove.
  rewrite bool_decide_eq_true_2 by exact Hin. fold w1.
  unfold bind at 1. rewrite <- Hlen.
  rewrite (read_arguments_reads E self req_num Hbyte frames values w1 rest).
  - unfold w1 at 2. rewrite Hattrs, set_obj_twice. reflexivity.
  - apply allocated_set_obj.
  - apply healthy_set_unused. exact Hh.
  - eapply Forall2_impl; [exact Hdec|]. intros fr x. apply decodes_same_dict. reflexivity.
  - rewrite Hattrs. exact Hpipe.
Qed.

(** X18.  When [Security.vet_request] raises for an inbound request, the
    callable is never looked up nor called: whatever the callables are,
    [_answer_request] reads the arguments, sends the exception of the
    gate back as the response under the request's number, and puts the
    number back.  (Stated for an exception without [errno] that is not
    fatal to the connection.) *)
Theorem vetoed_request_is_answered_with_the_veto (E : Env) (self : nat)
    (function_string : string) (num_args req_num : Z)
    (frames : list (byte * list byte)) (values : list value) (rest : list byte)
    (w : World) (e : exn) :
  req_num ∈ unused w self →
  0 ≤ req_num ≤ 255 →
  healthy w self →
  Forall2 (decodes E self w) frames values →
  length frames = Z.to_nat num_args →
  inpipe (attrs w self) = frames_bytes req_num frames ++ rest →
  vet_request E function_string num_args values = Some e →
  errno e = None →
  is_routine_fatal E e = false →
  Z.of_nat (length (pickle_dumps E (VExc e))) < 2 ^ 56 →
  ∃ w',
    (∀ apply, _answer_request E apply self function_string num_args req_num w = (Ok tt, w'))
    ∧ outpipe (attrs w' self)
      = outpipe (attrs w self) ++ frame_bytes "o" req_num (pickle_dumps E (VExc e))
    ∧ inpipe (attrs w' self) = rest
    ∧ unused w' self = unused w self.
Proof.
  intros Hin Hbyte Hh Hdec Hlen Hpipe Hvet Herrno Hfatal Hsize.
  set (w1 := set_obj self
               (set_inpipe rest (set_unused (unused w self ∖ {[req_num]}) (attrs w self))) w).
  assert (Hh1 : healthy w1 self) by (unfold healthy, w1; rewrite attrs_set_obj; exact Hh).
  assert (Heval : ∀ apply,
             evaluate_request E apply function_string num_args values w1 = (Ok (VExc e), w1)).
  { intros apply. unfold evaluate_request, try_except. rewrite Hvet.
    unfold raise, _extract_exception. rewrite Herrno, Hfatal. reflexivity. }
  pose proof (_write_emits self "o" (pickle_dumps E (VExc e)) req_num w1
                ltac:(reflexivity) Hh1 Hbyte Hsize) as Hwrite.
  eexists. split; [|split; [|split]].
  - intros apply.
    rewrite (_answer_request_after_arguments E apply self function_string num_args req_num
               frames values rest w Hin Hbyte Hh Hdec Hlen Hpipe).
    fold w1. unfold bind at 1. rewrite Heval.
    unfold bind at 1. cbn [_put]. unfold _putobj. rewrite Hwrite.
    unfold unused_add. reflexivity.
  - rewrite !attrs_set_obj. unfold w1. rewrite attrs_set_obj. reflexivity.
  - rewrite !attrs_set_obj. unfold w1. rewrite attrs_set_obj. reflexivity.
  - unfold unused. rewrite !attrs_set_obj. unfold w1. rewrite attrs_set_obj.
    cbn [unused_request_numbers set_unused set_outpipe set_inpipe].
    apply add_back. exact Hin.
Qed.

(** X19.  When the callable of an inbound request raises an exception
    that [robust.is_routine_fatal] classes as fatal, [_answer_request]
    lets it go on: it ends with that exception in the state in which the
    callable ended, so no response frame is written and the number of
    the request is not put back among the unused ones.  (Stated for an
    exception without [errno].) *)
Theorem fatal_failure_is_not_answered (E : Env) (apply : value → list value → M value)
    (self : nat) (function_string : string) (num_args req_num : Z)
    (frames : list (byte * list byte)) (values : list value) (rest : list byte)
    (w w2 : World) (func : value) (e : exn) :
  let w1 := set_obj self
              (set_inpipe rest (set_unused (unused w self ∖ {[req_num]}) (attrs w self))) w in
  req_num ∈ unused w self →
  0 ≤ req_num ≤ 255 →
  healthy w self →
  Forall2 (decodes E self w) frames values →
  length frames = Z.to_nat num_args →
  inpipe (attrs w self) = frames_bytes req_num frames ++ rest →
  vet_request E function_string num_args values = None →
  _eval E function_string w1 = (Ok func, w1) →
  apply func values w1 = (Raise e, w2) →
  errno e = None →
  is_routine_fatal E e = true →
  _answer_request E apply self function_string num_args req_num w = (Raise e, w2)
  ∧ (attrs w2 self = attrs w1 self →
     outpipe (attrs w2 self) = outpipe (attrs w self) ∧ req_num ∉ unused w2 self).
Proof.
  intros w1 Hin Hbyte Hh Hdec Hlen Hpipe Hvet Heval Happly Herrno Hfatal.
  split.
  - rewrite (_answer_request_after_arguments E apply self function_string num_args req_num
               frames values rest w Hin Hbyte Hh Hdec Hlen Hpipe).
    fold w1. unfold bind at 1.
    unfold evaluate_request, try_except. rewrite Hvet.
    unfold bind at 1. rewrite Heval, Happly.
    unfold _extract_exception. rewrite Herrno, Hfatal. reflexivity.
  - intros Hsame. unfold unused. rewrite Hsame. unfold w1. rewrite attrs_set_obj.
    cbn [outpipe unused_request_numbers set_inpipe set_unused].
    split; [reflexivity|].
    rewrite elem_of_difference, elem_of_singleton. tauto.
Qed.

Lemma demo_hello_decodes E w :
  pickle_loads E = demo_loads →
  Forall2 (decodes E 0 w) [("o"%byte, demo_dumps (VStr "hello"))] [VStr "hello"].
Proof.
  intros Hloads. constructor; [|constructor].
  split; [discriminate|]. split; [simpl; lia|]. intros w' _.
  change (_get_value E 0 [fst ("o"%byte, demo_dumps (VStr "hello"))]
            (snd ("o"%byte, demo_dumps (VStr "hello"))))
    with (lift (pickle_loads E (demo_dumps (VStr "hello")))).
  rewrite Hloads. reflexivity.
Qed.

Lemma vetoed_request_is_answered_with_the_veto_witness :
  let frames := [("o"%byte, demo_dumps (VStr "hello"))] in
  let w := demo_world (frames_bytes 7 frames ++ []) in
  let e := mk_exn (OtherException "Violation") "forbidden" in
  ∃ w',
    (∀ apply, _answer_request demo_strict apply 0 "len" 1 7 w = (Ok tt, w'))
    ∧ outpipe (attrs w' 0)
      = outpipe (attrs w 0) ++ frame_bytes "o" 7 (pickle_dumps demo_strict (VExc e))
    ∧ inpipe (attrs w' 0) = []
    ∧ unused w' 0 = unused w 0.
Proof.
  intros frames w e.
  apply (vetoed_request_is_answered_with_the_veto demo_strict 0 "len" 1 7 frames
           [VStr "hello"] [] w e).
  - apply (bool_decide_unpack (7 ∈ unused w 0)). vm_compute. exact I.
  - lia.
  - repeat split; reflexivity.
  - apply demo_hello_decodes. reflexivity.
  - reflexivity.
  - reflexivity.
  - reflexivity.
  - reflexivity.
  - reflexivity.
  - simpl. lia.
Defined.

Lemma fatal_failure_is_not_answered_witness :
  let frames := [("o"%byte, demo_dumps (VStr "hello"))] in
  let w := demo_world (frames_bytes 7 frames ++ []) in
  let w1 := set_obj 0 (set_inpipe [] (set_unused (unused w 0 ∖ {[7]}) (attrs w 0))) w in
  let e := mk_exn KeyboardInterrupt "" in
  _answer_request demo_linux demo_interrupted 0 "len" 1 7 w = (Raise e, w1)
  ∧ (attrs w1 0 = attrs w1 0 →
     outpipe (attrs w1 0) = outpipe (attrs w 0) ∧ 7 ∉ unused w1 0).
Proof.
  intros frames w w1 e.
  apply (fatal_failure_is_not_answered demo_linux demo_interrupted 0 "len" 1 7 frames
           [VStr "hello"] [] w w1 (VObject "len") e).
  - apply (bool_decide_unpack (7 ∈ unused w 0)). vm_compute. exact I.
  - lia.
  - repeat split; reflexivity.
  - apply demo_hello_decodes. reflexivity.
  - reflexivity.
  - reflexivity.
  - reflexivity.
  - vm_compute. reflexivity.
  - reflexivity.
  - reflexivity.
  - reflexivity.
Defined.

(** ** A call from one side to the other *)

Lemma buffers_decode E self w bufs :
  Forall (fun buf => Z.of_nat (length buf) < 2 ^ 56) bufs →
  Forall2 (decodes E self w) (buffer_frames bufs) (map VBytes bufs).
Proof.
  induction 1 as [|buf bufs Hlen _ IH]; cbn; constructor; [|exact IH].
  split; [discriminate|]. split; [exact Hlen|]. intros w' _. reflexivity.
Qed.

Lemma put_arguments_buffers E self req_num bufs :
  ∀ w,
    is_Some (objects w !! self) →
    healthy w self →
    0 ≤ req_num ≤ 255 →
    Forall (fun buf => Z.of_nat (length buf) < 2 ^ 56) bufs →
    put_arguments E self (map VBytes bufs) req_num w
    = (Ok tt,
       set_obj self
         (set_outpipe (outpipe (attrs w self) ++ frames_bytes req_num (buffer_frames bufs))
            (attrs w self)) w).
Proof.
  induction bufs as [|buf bufs IH]; intros w Hex Hh Hn Hall.
  - cbn. rewrite app_nil_r.
    replace (set_outpipe (outpipe (attrs w self)) (attrs w self)) with (attrs w self)
      by (destruct (attrs w self); reflexivity).
    rewrite set_obj_same by exact Hex. reflexivity.
  - apply Forall_cons in Hall as [Hlen Hall].
    cbn [map put_arguments _put]. unfold _putbuf, bind.
    rewrite (_write_emits self "b" buf req_num w) by (first [reflexivity | assumption]).
    rewrite IH; [| apply allocated_set_obj | apply healthy_set_outpipe; exact Hh
                 | exact Hn | exact Hall].
    rewrite attrs_set_obj, set_obj_twice.
    cbn [buffer_frames map frames_bytes flat_map fst snd outpipe set_outpipe].
    unfold set_outpipe. cbn [outpipe inpipe in_fault out_fault closed conn_number
                             unused_request_numbers].
    rewrite <- app_assoc. reflexivity.
Qed.

(** X20.  A remote call with buffers as arguments and a buffer as
    result, both sides at once.  The caller's [reval] sends one request
    frame and one frame per argument, all under the number [r] it took;
    the other side, reading exactly these frames in [_get_response],
    calls the named callable on the same buffers, writes the result
    under [r] and goes on waiting with its unused numbers as before; and
    the caller, reading exactly that response, returns the result, its
    own unused numbers as before. *)
Theorem remote_call_round_trip (Ec Es : Env) (apply_c apply_s : value → list value → M value)
    (fuel_c fuel_s : nat) (client server : nat) (wc ws : World)
    (function_string : string) (bufs : list (list byte)) (out : list byte)
    (func : value) (desired : Z) (rest_c rest_s : list byte) :
  let r := set_pop Ec (unused wc client) in
  let request := VRequest function_string (Z.of_nat (length bufs)) in
  let sent := frame_bytes "o" r (pickle_dumps Ec request)
              ++ frames_bytes r (buffer_frames bufs) in
  let response := frame_bytes "b" r out in
  healthy wc client →
  healthy ws server →
  r ∈ unused wc client →
  r ∈ unused ws server →
  0 ≤ r ≤ 255 →
  r ≠ desired →
  Z.of_nat (length (pickle_dumps Ec request)) < 2 ^ 56 →
  pickle_loads Es (pickle_dumps Ec request) = Ok request →
  Forall (fun buf => Z.of_nat (length buf) < 2 ^ 56) bufs →
  Z.of_nat (length out) < 2 ^ 56 →
  vet_request Es function_string (Z.of_nat (length bufs)) (map VBytes bufs) = None →
  (∀ w, _eval Es function_string w = (Ok func, w)) →
  (∀ w, apply_s func (map VBytes bufs) w = (Ok (VBytes out), w)) →
  inpipe (attrs ws server) = sent ++ rest_s →
  inpipe (attrs wc client) = response ++ rest_c →
  (∃ ws',
     _get_response Es apply_s (S fuel_s) server desired ws
     = _get_response Es apply_s fuel_s server desired ws'
     ∧ outpipe (attrs ws' server) = outpipe (attrs ws server) ++ response
     ∧ inpipe (attrs ws' server) = rest_s
     ∧ unused ws' server = unused ws server)
  ∧ (∃ wc',
       PipeConnection_reval Ec apply_c (S fuel_c) client function_string (map VBytes bufs) wc
       = (Ok (VBytes out), wc')
       ∧ outpipe (attrs wc' client) = outpipe (attrs wc client) ++ sent
       ∧ inpipe (attrs wc' client) = rest_c
       ∧ unused wc' client = unused wc client).
Proof.
  intros r request sent response Hc Hs Hrc Hrs Hr Hdes Hreqlen Hloads Hbufs Hout Hvet
    Heval Happly Hpipe_s Hpipe_c.
  split.
  - (* the answering side *)
    unfold sent in Hpipe_s. rewrite <- app_assoc in Hpipe_s.
    rewrite (_get_response_step Es apply_s fuel_s server desired
               ("o"%byte, pickle_dumps Ec request) request r
               (frames_bytes r (buffer_frames bufs) ++ rest_s) ws Hs Hr).
    2:{ split; [discriminate|]. split; [exact Hreqlen|]. intros w' _.
        change (_get_value Es server [fst ("o"%byte, pickle_dumps Ec request)]
                  (snd ("o"%byte, pickle_dumps Ec request)))
          with (lift (pickle_loads Es (pickle_dumps Ec request))).
        rewrite Hloads. reflexivity. }
    2:{ exact Hpipe_s. }
    destruct (Z.eqb_spec r desired); [contradiction|].
    unfold request at 1.
    set (w1 := set_obj server _ ws).
    assert (Hh1 : healthy w1 server) by (apply healthy_set_inpipe; exact Hs).
    assert (Hu1 : unused w1 server = unused ws server)
      by (apply unused_set_obj; reflexivity).
    unfold bind at 1.
    rewrite (_answer_request_after_arguments Es apply_s server function_string
               (Z.of_nat (length bufs)) r (buffer_frames bufs) (map VBytes bufs) rest_s w1).
    2:{ rewrite Hu1. exact Hrs. }
    2:{ exact Hr. }
    2:{ exact Hh1. }
    2:{ apply buffers_decode. exact Hbufs. }
    2:{ unfold buffer_frames. rewrite length_map, Nat2Z.id. reflexivity. }
    2:{ unfold w1. rewrite attrs_set_obj. reflexivity. }
    set (w2 := set_obj server _ w1).
    assert (Hh2 : healthy w2 server)
      by (unfold healthy, w2; rewrite attrs_set_obj; exact Hh1).
    unfold bind at 1. unfold evaluate_request, try_except. rewrite Hvet.
    unfold bind at 1. rewrite Heval, Happly.
    unfold bind at 1. cbn [_put]. unfold _putbuf.
    rewrite (_write_emits server "b" out r w2) by (first [reflexivity | assumption]).
    unfold unused_add.
    eexists. split; [reflexivity|].
    unfold unused. rewrite !attrs_set_obj. unfold w2. rewrite attrs_set_obj.
    rewrite Hu1. unfold w1. rewrite attrs_set_obj. unfold unused.
    cbn [outpipe inpipe unused_request_numbers set_outpipe set_inpipe set_unused].
    repeat split; [reflexivity.. |].
    apply add_back. exact Hrs.
  - (* the calling side *)
    unfold PipeConnection_reval. unfold bind at 1. unfold _get_new_req_num.
    rewrite bool_decide_eq_false_2
      by (intros Hempty; rewrite Hempty in Hrc; exact (not_elem_of_empty _ Hrc)).
    fold r.
    set (w1 := set_obj client _ wc).
    assert (Hh1 : healthy w1 client) by (apply healthy_set_unused; exact Hc).
    unfold bind at 1. cbn [_put]. unfold _putobj. rewrite length_map. fold request.
    rewrite (_write_emits client "o" (pickle_dumps Ec request) r w1)
      by (first [reflexivity | assumption]).
    set (w2 := set_obj client _ w1).
    assert (Hh2 : healthy w2 client) by (apply healthy_set_outpipe; exact Hh1).
    unfold bind at 1.
    rewrite (put_arguments_buffers Ec client r bufs w2 (allocated_set_obj _ _ _) Hh2 Hr Hbufs).
    set (w3 := set_obj client _ w2).
    assert (Hh3 : healthy w3 client) by (apply healthy_set_outpipe; exact Hh2).
    assert (Hin3 : inpipe (attrs w3 client) = response ++ rest_c).
    { unfold w3. rewrite attrs_set_obj. unfold w2. rewrite attrs_set_obj.
      unfold w1. rewrite attrs_set_obj. exact Hpipe_c. }
    unfold bind at 1.
    rewrite (_get_response_step Ec apply_c fuel_c client r ("b"%byte, out) (VBytes out) r
               rest_c w3 Hh3 Hr).
    2:{ split; [discriminate|]. split; [exact Hout|]. intros w' _. reflexivity. }
    2:{ exact Hin3. }
    rewrite Z.eqb_refl. unfold ret at 1.
    unfold bind, unused_add, lift. cbn [reval_result].
    eexists. split; [reflexivity|].
    unfold unused. rewrite !attrs_set_obj. unfold w3. rewrite attrs_set_obj.
    unfold w2. rewrite attrs_set_obj. unfold w1. rewrite attrs_set_obj. unfold unused.
    cbn [outpipe inpipe unused_request_numbers set_outpipe set_inpipe set_unused].
    unfold sent. rewrite <- app_assoc.
    repeat split; [reflexivity.. |].
    apply add_back. exact Hrc.
Qed.

Lemma remote_call_round_trip_witness :
  let bufs := [["h"; "i"]%byte] in
  let out := ["h"; "i"]%byte in
  let r := 255 in
  let request := VRequest "len" (Z.of_nat (length bufs)) in
  let sent := frame_bytes "o" r (pickle_dumps demo_linux request)
              ++ frames_bytes r (buffer_frames bufs) in
  let response := frame_bytes "b" r out in
  let wc := demo_world (response ++ []) in
  let ws := demo_world (sent ++ []) in
  (∃ ws',
     _get_response demo_bsd demo_echo 1 0 (-1) ws
     = _get_response demo_bsd demo_echo 0 0 (-1) ws'
     ∧ outpipe (attrs ws' 0) = outpipe (attrs ws 0) ++ response
     ∧ inpipe (attrs ws' 0) = []
     ∧ unused ws' 0 = unused ws 0)
  ∧ (∃ wc',
       PipeConnection_reval demo_linux demo_call 1 0 "len" (map VBytes bufs) wc
       = (Ok (VBytes out), wc')
       ∧ outpipe (attrs wc' 0) = outpipe (attrs wc 0) ++ sent
       ∧ inpipe (attrs wc' 0) = []
       ∧ unused wc' 0 = unused wc 0).
Proof.
  intros bufs out r request sent response wc ws.
  assert (Hr : set_pop demo_linux (unused wc 0) = r) by (vm_compute; reflexivity).
  pose proof (remote_call_round_trip demo_linux demo_bsd demo_call demo_echo 0 0 0 0 wc ws
                "len" bufs out (VObject "len") (-1) [] []) as H.
  cbv zeta in H. rewrite Hr in H. apply H; clear H.
  - repeat split; reflexivity.
  - repeat split; reflexivity.
  - apply (bool_decide_unpack (r ∈ unused wc 0)). vm_compute. exact I.
  - apply (bool_decide_unpack (r ∈ unused ws 0)). vm_compute. exact I.
  - unfold r. lia.
  - unfold r. lia.
  - simpl. lia.
  - reflexivity.
  - repeat constructor.
  - simpl. lia.
  - reflexivity.
  - intros w. reflexivity.
  - intros w. reflexivity.
  - reflexivity.
  - reflexivity.
Defined.

(** ** The registry of names *)

Lemma import_modules_has_map_filenames E g :
  is_Some (import_modules E g !! "map_filenames").
Proof.
  unfold import_modules. case_bool_decide as Hin; [exact Hin|].
  cbn [fold_left]. rewrite !lookup_insert_ne by discriminate.
  rewrite lookup_insert_eq. eauto.
Qed.

Lemma import_modules_dom E : dom (import_modules E ∅) = list_to_set registry_names.
Proof.
  unfold import_modules. rewrite bool_decide_eq_false_2
    by (rewrite lookup_empty; intros [? ?]; discriminate).
  cbn [fold_left]. rewrite !dom_insert_L, dom_empty_L.
  apply set_eq. intros name. unfold registry_names.
  rewrite elem_of_list_to_set. rewrite !elem_of_union, !elem_of_singleton, elem_of_empty.
  rewrite !elem_of_cons, elem_of_nil. tauto.
Qed.

(** X21.  [import_modules] fills the registry only once: applying it to
    its own result changes nothing.  Starting from an empty registry it
    files exactly the seventeen names listed in the source, among them
    [RedirectedRun] for the function of that name; so on a process fresh
    from [module_init], a dotted name whose first segment is neither a
    built-in, nor one of these names, nor [conn_number] is refused by
    [_eval] with [NameError]. *)
Theorem import_modules_registry (E : Env) (g : gmap string value) (funcstring firstelem : string)
    (funclist : list string) :
  str_split "." funcstring = firstelem :: funclist →
  import_modules E (import_modules E g) = import_modules E g
  ∧ dom (import_modules E ∅) = list_to_set registry_names
  ∧ import_modules E ∅ !! "RedirectedRun" = Some VRedirectedRun
  ∧ (builtins E !! firstelem = None →
     firstelem ∉ registry_names →
     firstelem ≠ "conn_number" →
     _eval E funcstring (module_init E)
     = (Raise (mk_exn NameError ("name '" +:+ funcstring +:+ "' is not defined")),
        module_init E)).
Proof.
  intros Hsplit. split; [|split; [|split]].
  - unfold import_modules at 1.
    rewrite bool_decide_eq_true_2 by apply import_modules_has_map_filenames. reflexivity.
  - apply import_modules_dom.
  - unfold import_modules. rewrite bool_decide_eq_false_2
      by (rewrite lookup_empty; intros [? ?]; discriminate).
    cbn [fold_left]. rewrite lookup_insert_ne by discriminate.
    apply lookup_insert_eq.
  - intros Hb Hnot Hcn.
    assert (Hnone : globals (module_init E) !! firstelem = None).
    { cbn [globals module_init]. rewrite lookup_insert_ne by congruence.
      apply not_elem_of_dom. rewrite import_modules_dom, elem_of_list_to_set. exact Hnot. }
    unfold _eval, list_pop0, try_except, bind, ret, raise, lift, globals_getitem.
    rewrite Hsplit, Hb, Hnone. reflexivity.
Qed.

Lemma import_modules_registry_witness :
  import_modules demo_linux (import_modules demo_linux ∅) = import_modules demo_linux ∅
  ∧ dom (import_modules demo_linux ∅) = list_to_set registry_names
  ∧ import_modules demo_linux ∅ !! "RedirectedRun" = Some VRedirectedRun
  ∧ (builtins demo_linux !! "subprocess" = None →
     "subprocess" ∉ registry_names →
     "subprocess" ≠ "conn_number" →
     _eval demo_linux "subprocess.run" (module_init demo_linux)
     = (Raise (mk_exn NameError ("name '" +:+ "subprocess.run" +:+ "' is not defined")),
        module_init demo_linux)).
Proof.
  apply (import_modules_registry demo_linux ∅ "subprocess.run" "subprocess" ["run"]).
  reflexivity.
Defined.

(** ** Attributes of the local connection *)


Lemma setattr_Ok name v w :
  LocalConnection_setattr name v w = (Ok tt, snd (LocalConnection_setattr name v w)).
Proof.
  unfold LocalConnection_setattr.
  destruct v; try reflexivity. destruct (String.eqb name "conn_number"); reflexivity.
Qed.






(** ** Call proxies *)









(** X26.  A [RedirectedConnection] built with routing number 0 on a
    process whose connection 0 is its local connection routes through
    that local connection: its [reval] resolves "RedirectedRun" in the
    registry, looks the target number up in [connection_dict] and is the
    [reval] of the connection found there, when that one is not the
    local connection itself. *)
Theorem routed_through_local_connection (E : Env) (fuel : nat) (t : Z) (target : Conn)
    (name : string) (args : list value) (w : World) :
  connection_dict w !! 0 = Some LocalConnection →
  connection_dict w !! t = Some target →
  target ≠ LocalConnection →
  builtins E !! "RedirectedRun" = None →
  import_modules E (globals w) !! "RedirectedRun" = Some VRedirectedRun →
  ∃ w',
    RedirectedConnection_init E t 0 w = (Ok (RedirectedConnection t 0 LocalConnection), w')
    ∧ globals w' = import_modules E (globals w)
    ∧ reval E (S fuel) (RedirectedConnection t 0 LocalConnection) name args w'
      = reval E fuel target name args w'.
Proof.
  intros Hlocal Htarget Hne Hb Hg.
  unfold RedirectedConnection_init, bind, Connection_init, connection_dict_getitem.
  cbn [connection_dict set_globals]. rewrite Hlocal.
  eexists. split; [reflexivity|]. split; [reflexivity|].
  set (w' := set_globals (import_modules E (globals w)) w).
  unfold reval at 1. cbn [Conn_reval]. unfold LocalConnection_reval. unfold bind at 1.
  assert (Heval : _eval E "RedirectedRun" w' = (Ok VRedirectedRun, w')).
  { assert (Hsplit : str_split "." "RedirectedRun" = ["RedirectedRun"]) by reflexivity.
    unfold _eval, list_pop0, try_except, bind, ret, raise, lift, globals_getitem.
    rewrite Hsplit, Hb. cbn [globals w' set_globals]. rewrite Hg. reflexivity. }
  rewrite Heval. rewrite apply_RedirectedRun.
  unfold RedirectedRun, bind, connection_dict_getitem.
  cbn [connection_dict w' set_globals]. rewrite Htarget.
  rewrite bool_decide_eq_false_2 by exact Hne. reflexivity.
Qed.

Lemma routed_through_local_connection_witness :
  ∃ w',
    RedirectedConnection_init demo_linux 1 0 (demo_world [])
    = (Ok (RedirectedConnection 1 0 LocalConnection), w')
    ∧ globals w' = import_modules demo_linux (globals (demo_world []))
    ∧ reval demo_linux 4 (RedirectedConnection 1 0 LocalConnection) "len" [VStr "ping"] w'
      = reval demo_linux 3 (PipeConnection 0) "len" [VStr "ping"] w'.
Proof.
  apply (routed_through_local_connection demo_linux 3 1 (PipeConnection 0) "len"
           [VStr "ping"] (demo_world [])).
  - reflexivity.
  - reflexivity.
  - discriminate.
  - reflexivity.
  - reflexivity.
Defined.

(** ** The table of virtual files *)

(** X27.  Ids of virtual files are never reused.  If every id in the
    table is at most the counter (as on a fresh process, and as
    deleting an entry keeps it), then [VirtualFile.new] returns the
    counter plus one, an id that is above every id in the table and so
    not in it; it files the object under that id, leaves all other
    entries as they are, and the table is again below the counter. *)
Theorem virtual_file_ids_are_fresh (E : Env) (fileobj : value) (w : World) (removed : value) :
  vfiles_below_counter w →
  vfiles_below_counter (module_init E)
  ∧ vfiles_below_counter (snd (_vfiles_delitem removed w))
  ∧ ∃ id w',
      VirtualFile_new fileobj w = (Ok id, w')
      ∧ id = _counter w + 1
      ∧ (∀ j, is_Some (_vfiles w !! j) → j < id)
      ∧ _vfiles w !! id = None
      ∧ _vfiles w' !! id = Some fileobj
      ∧ (∀ j, j ≠ id → _vfiles w' !! j = _vfiles w !! j)
      ∧ vfiles_below_counter w'.
Proof.
  intros Hinv. split; [|split].
  - intros id [x Hx]. cbn in Hx. rewrite lookup_empty in Hx. discriminate.
  - intros id. unfold _vfiles_delitem. destruct removed; cbn [snd]; try apply Hinv.
    cbn [_vfiles _counter set_vfiles]. intros [x Hx].
    apply lookup_delete_Some in Hx as [_ Hx]. apply Hinv. eauto.
  - eexists _, _. split; [reflexivity|]. split; [reflexivity|].
    assert (Hbelow : ∀ j, is_Some (_vfiles w !! j) → j < _counter w + 1)
      by (intros j Hj; apply Hinv in Hj; lia).
    split; [exact Hbelow|]. split.
    { destruct (_vfiles w !! (_counter w + 1)) eqn:Hl; [|reflexivity].
      assert (_counter w + 1 < _counter w + 1) by (apply Hbelow; eauto). lia. }
    cbn [_vfiles _counter set_vfiles]. split; [apply lookup_insert_eq|]. split.
    + intros j Hj. apply lookup_insert_ne. congruence.
    + intros j [x Hx]. cbn [_vfiles _counter set_vfiles] in *.
      destruct (decide (j = _counter w + 1)) as [-> | Hne]; [lia|].
      rewrite lookup_insert_ne in Hx by congruence.
      assert (j ≤ _counter w) by (apply Hinv; eauto). lia.
Qed.

Lemma virtual_file_ids_are_fresh_witness :
  let w := module_init demo_linux in
  vfiles_below_counter (module_init demo_linux)
  ∧ vfiles_below_counter (snd (_vfiles_delitem (VInt 0) w))
  ∧ ∃ id w',
      VirtualFile_new (VFileObj "source") w = (Ok id, w')
      ∧ id = _counter w + 1
      ∧ (∀ j, is_Some (_vfiles w !! j) → j < id)
      ∧ _vfiles w !! id = None
      ∧ _vfiles w' !! id = Some (VFileObj "source")
      ∧ (∀ j, j ≠ id → _vfiles w' !! j = _vfiles w !! j)
      ∧ vfiles_below_counter w'.
Proof.
  intros w.
  apply (virtual_file_ids_are_fresh demo_linux (VFileObj "source") w (VInt 0)).
  intros id [x Hx]. cbn in Hx. rewrite lookup_empty in Hx. discriminate.
Defined.

(** X28.  [closebyid] takes the file out of the table before it closes
    it: however [close] ends, the entry is gone afterwards (the file's
    [close] being taken not to touch the table), so that closing,
    reading or writing by the same id again raises [KeyError] without
    calling any method of a file. *)
Theorem virtual_file_closed_once (file_read : value → option value → M value)
    (file_write : value → value → M value) (file_close : value → M value)
    (id : Z) (fp : value) (w w' : World) (r : outcome value) (length buffer : value) :
  (∀ f w0, _vfiles (snd (file_close f w0)) = _vfiles w0) →
  _vfiles w !! id = Some fp →
  VirtualFile_closebyid file_close (VInt id) w = (r, w') →
  (r, w') = file_close fp (set_vfiles (delete id (_vfiles w)) (_counter w) w)
  ∧ _vfiles w' = delete id (_vfiles w)
  ∧ (∃ e, VirtualFile_closebyid file_close (VInt id) w' = (Raise e, w')
          ∧ exc_type e = KeyError)
  ∧ (∃ e, VirtualFile_readfromid file_read (VInt id) length w' = (Raise e, w')
          ∧ exc_type e = KeyError)
  ∧ (∃ e, VirtualFile_writetoid file_write (VInt id) buffer w' = (Raise e, w')
          ∧ exc_type e = KeyError).
Proof.
  intros Hclose Hfp Hrun.
  unfold VirtualFile_closebyid, bind, _vfiles_getitem, _vfiles_delitem in Hrun.
  rewrite Hfp in Hrun.
  assert (Hgone : _vfiles w' !! id = None).
  { pose proof (Hclose fp (set_vfiles (delete id (_vfiles w)) (_counter w) w)) as Hk.
    rewrite Hrun in Hk. cbn [snd _vfiles set_vfiles] in Hk.
    rewrite Hk. apply lookup_delete_eq. }
  split; [symmetry; exact Hrun|]. split.
  { pose proof (Hclose fp (set_vfiles (delete id (_vfiles w)) (_counter w) w)) as Hk.
    rewrite Hrun in Hk. exact Hk. }
  split; [|split].
  - unfold VirtualFile_closebyid, bind, _vfiles_getitem. rewrite Hgone.
    eexists. split; reflexivity.
  - unfold VirtualFile_readfromid, bind, _vfiles_getitem.
    destruct length; rewrite Hgone; eexists; split; reflexivity.
  - unfold VirtualFile_writetoid, bind, _vfiles_getitem. rewrite Hgone.
    eexists. split; reflexivity.
Qed.

Lemma virtual_file_closed_once_witness :
  let file_read := fun (_ : value) (_ : option value) => ret (VBytes []) in
  let file_write := fun (_ _ : value) => ret VNone in
  let file_close := fun (_ : value) => ret VNone in
  let w := snd (VirtualFile_new (VFileObj "source") (demo_world [])) in
  let w' := set_vfiles (delete 0 (_vfiles w)) (_counter w) w in
  (Ok VNone, w') = file_close (VFileObj "source") w'
  ∧ _vfiles w' = delete 0 (_vfiles w)
  ∧ (∃ e, VirtualFile_closebyid file_close (VInt 0) w' = (Raise e, w')
          ∧ exc_type e = KeyError)
  ∧ (∃ e, VirtualFile_readfromid file_read (VInt 0) VNone w' = (Raise e, w')
          ∧ exc_type e = KeyError)
  ∧ (∃ e, VirtualFile_writetoid file_write (VInt 0) (VBytes []) w' = (Raise e, w')
          ∧ exc_type e = KeyError).
Proof.
  intros file_read file_write file_close w w'.
  apply (virtual_file_closed_once file_read file_write file_close 0 (VFileObj "source")
           w w' (Ok VNone) VNone (VBytes [])).
  - intros f w0. reflexivity.
  - reflexivity.
  - reflexivity.
Defined.

Lemma _write_keeps_table self headerchar data req_num w r w' :
  _write self headerchar data req_num w = (r, w') →
  _vfiles w' = _vfiles w ∧ _counter w' = _counter w.
Proof.
  unfold _write, bind, try_except, lift, raise, outpipe_write, outpipe_flush.
  intros H.
  repeat (case_match; simplify_eq/=; try done).
Qed.

(** X29.  [_putfile] and [_putiter] register the stream before they
    write the frame ([VirtualFile.new] is an argument of the call of
    [_write]): however the sending ends, also when the frame is
    refused or the pipe fails, the counter has advanced by one and the
    stream stays in the table under the new number. *)
Theorem stream_stays_registered_when_send_fails (self : nat) (fp iterator : value)
    (req_num : Z) (w w1 w2 : World) (r1 r2 : outcome unit) :
  _putfile self fp req_num w = (r1, w1) →
  _putiter self iterator req_num w = (r2, w2) →
  (_counter w1 = _counter w + 1
   ∧ _vfiles w1 = <[_counter w + 1 := fp]> (_vfiles w))
  ∧ (_counter w2 = _counter w + 1
     ∧ _vfiles w2 = <[_counter w + 1 := VMiscIterToFile iterator]> (_vfiles w)).
Proof.
  intros H1 H2. split.
  - unfold _putfile, bind, VirtualFile_new, lift in H1.
    destruct (_i2b (_counter w + 1) 0) as [b | e |].
    + apply _write_keeps_table in H1 as [Hv Hc]. rewrite Hv, Hc. split; reflexivity.
    + injection H1 as _ <-. split; reflexivity.
    + injection H1 as _ <-. split; reflexivity.
  - unfold _putiter, bind, VirtualFile_new, lift in H2.
    destruct (_i2b (_counter w + 1) 0) as [b | e |].
    + apply _write_keeps_table in H2 as [Hv Hc]. rewrite Hv, Hc. split; reflexivity.
    + injection H2 as _ <-. split; reflexivity.
    + injection H2 as _ <-. split; reflexivity.
Qed.

Lemma stream_stays_registered_when_send_fails_witness :
  let w := demo_world [] in
  let run1 := _putfile 0 (VFileObj "source") 256 w in
  let run2 := _putiter 0 (VIterator "rows") 256 w in
  (∃ e, fst run1 = Raise e)
  ∧ (∃ e, fst run2 = Raise e)
  ∧ (_counter (snd run1) = _counter w + 1
     ∧ _vfiles (snd run1) = <[_counter w + 1 := VFileObj "source"]> (_vfiles w))
  ∧ (_counter (snd run2) = _counter w + 1
     ∧ _vfiles (snd run2)
       = <[_counter w + 1 := VMiscIterToFile (VIterator "rows")]> (_vfiles w)).
Proof.
  intros w run1 run2.
  split; [eexists; vm_compute; reflexivity|].
  split; [eexists; vm_compute; reflexivity|].
  apply (stream_stays_registered_when_send_fails 0 (VFileObj "source") (VIterator "rows")
           256 w (snd run1) (snd run2) (fst run1) (fst run2)).
  - apply surjective_pairing.
  - apply surjective_pairing.
Defined.
